(** * Extract360: the container-parsing core of [extract360.py]

    A shallow embedding of the cluster-address correction ([get_cluster]),
    the chunked file reader and the directory scan ([fill_directory]), the
    phases of [write_common_part] (content type, icons with [dump_png],
    directory area, hash table), the text-slot stripping ([strip_blanks],
    [dump_info]), the master hash ([check_sha1]) and the helpers [mstime],
    [rm_nul], [do_mkdir], [do_utime], [nice_open_file] and
    [nice_open_dir]; then the properties the specification states about
    them, and further properties of the code.

    Conventions.
    - Python integers are [Z]; [//] with a positive divisor is [Z.div] and
      [%] is [Z.modulo] (both round towards minus infinity).
    - A [bytes] value is a [list Z] of values in [0, 255]; a [str] is the
      list of its code points.  A [dict] is a [gmap].
    - What the program does to the outside world is a trace of [event]s in
      program order.  Exceptions raised by the Python code itself
      ([IndexError], [struct.error], [UnicodeDecodeError], [KeyError],
      [TypeError], a negative seek) are modelled: they end the computation
      with the trace issued so far.
    - A call on the output side ([os.chdir], [os.mkdir], [open] for
      writing, [os.utime]) is refused whatever the host when its path has
      an embedded NUL (Python raises [ValueError] before the host is asked)
      or is empty (no host has a file or directory of that name:
      [FileNotFoundError]); both are modelled, and a refused call leaves
      no event.  Whether any other path is accepted depends on the host's
      file system, which is not part of the model: such a call is recorded
      as issued, and a trace describes a run in which the host accepted
      it.  In the same way the text file and the standard output are
      taken to accept every string, and [time.mktime] every time. *)

From Stdlib Require Import ZArith Lia List String Ascii HexString DecimalString.
From stdpp Require Import base option list gmap.
From Equations Require Import Equations.
Import ListNotations.
Local Open Scope Z_scope.

(** ** Python values *)

(** An ASCII literal as a [str] (or [bytes]) value. *)
Definition lit (s : string) : list Z :=
  map (fun a => Z.of_N (N_of_ascii a)) (list_ascii_of_string s).

(** [hex(n)] *)
Definition hex (n : Z) : list Z := lit (HexString.of_Z n).

(** ["%i" % n] *)
Definition fmt_i (n : Z) : list Z := lit (NilZero.string_of_int (Z.to_int n)).

(** [l[lo:hi]] for [0 <= lo] and [0 <= hi], the only way the program
    slices. *)
Definition slice {A} (l : list A) (lo hi : Z) : list A :=
  take (Z.to_nat (hi - lo)) (drop (Z.to_nat lo) l).

(** [l[i]] for [0 <= i]; [None] stands for [IndexError]. *)
Definition index {A} (l : list A) (i : Z) : option A :=
  if i <? 0 then None else l !! Z.to_nat i.

(** [len(l)] *)
Definition len {A} (l : list A) : Z := Z.of_nat (length l).

(** Truth value of an integer in a condition. *)
Definition truthy (n : Z) : bool := negb (n =? 0).

(** [s.count(c)] for a one-character (one-byte) [c]. *)
Definition count (c : Z) (s : list Z) : Z :=
  len (filter (fun x => x = c) s).

(** ** Effects *)

Inductive exn :=
| IndexError
| StructError
| UnicodeDecodeError
| KeyError (key : Z)
| TypeError
| SeekError
| ValueError
| FileNotFoundError.

Inductive event :=
| EPrint (msg : list Z)
| ETxtWrite (s : list Z)
| ETxtNewline
| ETxtClose
| ESeek (pos : Z)
| ERead (n : Z)
| EChdir (path : list Z)
| EMkdir (name : list Z)
| EOpenWrite (name : list Z) (buf : list Z)
| EUtime (name : list Z) (atime mtime : Z).

(** How a piece of code leaves: [continue], [break] or an exception. *)
Inductive ctl := Continue | Break | Raise (e : exn).

(** A computation: the events issued, then the value or the way out. *)
Definition M (A : Type) : Type := (list event * (ctl + A))%type.

Definition ret {A} (a : A) : M A := ([], inr a).

(** [m] after the events [t]. *)
Definition prepend {A} (t : list event) (m : M A) : M A := (t ++ fst m, snd m).

Definition bind {A B} (m : M A) (f : A -> M B) : M B :=
  match m with
  | (t, inr a) => prepend t (f a)
  | (t, inl c) => (t, inl c)
  end.

#[global] Instance M_ret : MRet M := @ret.
#[global] Instance M_bind : MBind M := fun A B f m => bind m f.

Definition emit (e : event) : M unit := ([e], inr tt).
Definition leave {A} (c : ctl) : M A := ([], inl c).

(** Run a value that may be missing, raising [e] when it is. *)
Definition orelse {A} (o : option A) (e : exn) : M A :=
  match o with Some a => mret a | None => leave (Raise e) end.

(** [if cond: body] for a body without a value. *)
Definition when (cond : bool) (body : M unit) : M unit :=
  if cond then body else mret tt.

(** [for x in l: body x] for a body without a value. *)
Fixpoint for_each {A} (l : list A) (body : A -> M unit) : M unit :=
  match l with
  | [] => mret tt
  | x :: l' => body x;; for_each l' body
  end.

(** [print] and [txtfile.write] with one argument. *)
Definition print (msg : list Z) : M unit := emit (EPrint msg).
Definition txt_write (s : list Z) : M unit := emit (ETxtWrite s).

(** What every call that takes a path does with it first: a path with an
    embedded NUL raises [ValueError], the empty path
    [FileNotFoundError]. *)
Definition path_check (path : list Z) : M unit :=
  if existsb (Z.eqb 0) path then leave (Raise ValueError)
  else match path with
       | [] => leave (Raise FileNotFoundError)
       | _ :: _ => mret tt
       end.

(** [os.chdir(path)], [os.mkdir(path)] *)
Definition os_chdir (path : list Z) : M unit :=
  path_check path;; emit (EChdir path).
Definition os_mkdir (path : list Z) : M unit :=
  path_check path;; emit (EMkdir path).

(** [outfile = open(name, "wb")], [outfile.write(buf)],
    [outfile.close()] *)
Definition open_write (name buf : list Z) : M unit :=
  path_check name;; emit (EOpenWrite name buf).

(** The exceptions that are instances of [OSError]. *)
Definition is_OSError (e : exn) : bool :=
  match e with FileNotFoundError => true | _ => false end.

(** [def do_mkdir(dirname)]: [try: os.mkdir(dirname)] with
    [except OSError], whose handler raises nothing, whatever the error. *)
Definition do_mkdir (dirname : list Z) : M unit :=
  match os_mkdir dirname with
  | (t, inl (Raise e)) => if is_OSError e then (t, inr tt) else (t, inl (Raise e))
  | r => r
  end.

(** [def do_utime(targetname, atime, mtime)] where [os.utime] exists and
    the platform is not "win32"; the two times go to the host as
    given, their conversion by [time.mktime] being the host's. *)
Definition do_utime (targetname : list Z) (atime mtime : Z) : M unit :=
  path_check targetname;; emit (EUtime targetname atime mtime).

(** [txtfile.write(a, b)]: the file's [write] takes exactly one argument,
    so the call raises before anything is written. *)
Definition txt_write2 (a : list Z) (b : Z) : M unit := leave (Raise TypeError).

(** ** Cluster-address correction: [get_cluster] *)

(** The two variables the [while] loop of [get_cluster] updates. *)
Record gc_state := GcState { gc_startclust : Z; gc_rst : Z }.

(** [while startclust >= 170] *)
Definition gc_guard (st : gc_state) : bool := 170 <=? gc_startclust st.

(** [startclust //= 170; rst += (startclust + 1) * offset] *)
Definition gc_body (offset : Z) (st : gc_state) : gc_state :=
  let startclust := gc_startclust st / 170 in
  GcState startclust (gc_rst st + (startclust + 1) * offset).

(** Case analysis that keeps the equation, for termination proofs. *)
Definition inspect {A : Type} (x : A) : { y : A | x = y } := exist _ x eq_refl.

(** The loop, by well-founded recursion on [startclust]. *)
Equations gc_while (offset : Z) (st : gc_state) : gc_state
  by wf (Z.to_nat (gc_startclust st)) lt :=
  gc_while offset st with inspect (gc_guard st) => {
    | exist _ true Hg => gc_while offset (gc_body offset st);
    | exist _ false _ => st }.
Next Obligation.
  unfold gc_guard in Hg. apply Z.leb_le in Hg.
  assert (0 <= gc_startclust st / 170) by (apply Z.div_pos; lia).
  assert (gc_startclust st / 170 < gc_startclust st) by (apply Z.div_lt; lia).
  lia.
Qed.

(** The same loop run for at most [fuel] iterations; [None] when the fuel
    runs out before the guard fails. *)
Fixpoint gc_run (fuel : nat) (offset : Z) (st : gc_state) : option gc_state :=
  match fuel with
  | O => None
  | S fuel' =>
      if gc_guard st then gc_run fuel' offset (gc_body offset st) else Some st
  end.

(** [def get_cluster(startclust, offset)]: [rst = 0], the loop, [return rst]. *)
Definition get_cluster (startclust offset : Z) : Z :=
  gc_rst (gc_while offset (GcState startclust 0)).

(** The correction as the specification words it: starting from an
    accumulator, while [c >= 170] replace [c] by [c div 170] and add
    [(c + 1) * s] to the accumulator; then return the accumulator. *)
Inductive correction_spec (s : Z) : Z -> Z -> Z -> Prop :=
| correction_done c acc :
    c < 170 -> correction_spec s c acc acc
| correction_iter c acc r :
    170 <= c ->
    correction_spec s (c / 170) (acc + (c / 170 + 1) * s) r ->
    correction_spec s c acc r.

(** ** Text: [bytes.decode("utf-8")], [strip_blanks], [dump_info] *)

Definition in_range (lo hi b : Z) : bool := (lo <=? b) && (b <=? hi).

(** Payload bits of a continuation byte. *)
Definition cont_bits (b : Z) : Z := Z.land b 0x3F.

(** Strict UTF-8 decoding, as [bytes.decode("utf-8")] does it: shortest
    forms only, no surrogates, nothing above U+10FFFF.  [None] stands for
    [UnicodeDecodeError]. *)
Fixpoint utf8_decode (bs : list Z) : option (list Z) :=
  match bs with
  | [] => Some []
  | b0 :: t0 =>
      if in_range 0x00 0x7F b0 then cons b0 <$> utf8_decode t0
      else if in_range 0xC2 0xDF b0 then
        match t0 with
        | b1 :: t1 =>
            if in_range 0x80 0xBF b1
            then cons (Z.shiftl (Z.land b0 0x1F) 6 + cont_bits b1)
                   <$> utf8_decode t1
            else None
        | _ => None
        end
      else if in_range 0xE0 0xEF b0 then
        match t0 with
        | b1 :: b2 :: t2 =>
            if in_range (if b0 =? 0xE0 then 0xA0 else 0x80)
                        (if b0 =? 0xED then 0x9F else 0xBF) b1
               && in_range 0x80 0xBF b2
            then cons (Z.shiftl (Z.land b0 0x0F) 12
                       + Z.shiftl (cont_bits b1) 6 + cont_bits b2)
                   <$> utf8_decode t2
            else None
        | _ => None
        end
      else if in_range 0xF0 0xF4 b0 then
        match t0 with
        | b1 :: b2 :: b3 :: t3 =>
            if in_range (if b0 =? 0xF0 then 0x90 else 0x80)
                        (if b0 =? 0xF4 then 0x8F else 0xBF) b1
               && in_range 0x80 0xBF b2 && in_range 0x80 0xBF b3
            then cons (Z.shiftl (Z.land b0 0x07) 18
                       + Z.shiftl (cont_bits b1) 12
                       + Z.shiftl (cont_bits b2) 6 + cont_bits b3)
                   <$> utf8_decode t3
            else None
        | _ => None
        end
      else None
  end.

(** [c in chars] *)
Definition mem (c : Z) (chars : list Z) : bool := existsb (Z.eqb c) chars.

(** [s.lstrip(chars)] *)
Fixpoint lstrip (chars s : list Z) : list Z :=
  match s with
  | [] => []
  | c :: s' => if mem c chars then lstrip chars s' else s
  end.

(** [s.rstrip(chars)] *)
Definition rstrip (chars s : list Z) : list Z :=
  rev (lstrip chars (rev s)).

(** [" \t\n\r\v\f\377"] and ["\0 \t\n\r\v\f\377"] *)
Definition lblanks : list Z := [32; 9; 10; 13; 11; 12; 255].
Definition rblanks : list Z := 0 :: lblanks.

(** [def strip_blanks(instring)] *)
Definition strip_blanks (instring : list Z) : list Z :=
  let rstr := rstrip rblanks instring in
  lstrip lblanks rstr.

(** The global [lang]. *)
Definition lang : list (list Z) :=
  map lit ["English"; "Japanese"; "German"; "French"; "Spanish"; "Italian";
           "Korean"; "Chinese"; "Portuguese"]%string.

(** [infile.read(n)] on the bytes that follow the file position: the bytes
    read and the bytes left. *)
Definition read_next (n : Z) (rest : list Z) : list Z * list Z :=
  (take (Z.to_nat n) rest, drop (Z.to_nat n) rest).

(** The loop of [dump_info] over the languages still to do; [rest] is the
    input from the file position on. *)
Fixpoint dump_info_loop (langs : list (list Z)) (rest : list Z) : M (list Z) :=
  match langs with
  | [] => mret rest
  | name :: langs' =>
      let (raw, rest') := read_next 0x100 rest in
      emit (ERead 0x100);;
      text ← orelse (utf8_decode raw) UnicodeDecodeError;
      let info := strip_blanks text in
      when (0 <? len info) (txt_write (name ++ lit ":" ++ info));;
      dump_info_loop langs' rest'
  end.

(** [def dump_info(infile, txtfile, what)]; [range(9)] indexes [lang]. *)
Definition dump_info (rest : list Z) (what : list Z) : M (list Z) :=
  txt_write ([10] ++ what ++ lit ":");;
  dump_info_loop (take 9 lang) rest.

(** ** Times and embedded NULs: [mstime], [rm_nul] *)

(** The tuple [mstime] returns: year, month, day, hour, minute, second,
    weekday, day of the year, DST flag. *)
Record time_tuple := TimeTuple {
  tm_year : Z; tm_mon : Z; tm_mday : Z;
  tm_hour : Z; tm_min : Z; tm_sec : Z;
  tm_wday : Z; tm_yday : Z; tm_isdst : Z }.

(** [def mstime(intime)] *)
Definition mstime (intime : Z) : time_tuple :=
  let num_d := Z.shiftr (Z.land intime 0xFFFF0000) 16 in
  let num_t := Z.land intime 0x0000FFFF in
  TimeTuple (Z.shiftr num_d 9 + 1980) (Z.land (Z.shiftr num_d 5) 0x0F)
            (Z.land num_d 0x1F)
            (Z.shiftr (Z.land num_t 0xFFFF) 11)
            (Z.land (Z.shiftr num_t 5) 0x3F) (Z.land num_t 0x1F * 2)
            0 0 (-1).

(** [def rm_nul(instring)]: the loop appends to [rstr] the characters
    whose [ord] is above 0. *)
Definition rm_nul (instring : list Z) : list Z :=
  fold_left (fun rstr i => if 0 <? i then rstr ++ [i] else rstr) instring [].

(** ** Content type: [write_common_part], the [if]/[elif] chain *)

Definition content_type_label (content_type : Z) : string :=
  if content_type =? 0 then "(no type)"
  else if truthy (Z.land content_type 0x00000001) then "Game save"
  else if truthy (Z.land content_type 0x00000002) then "Game add-on"
  else if truthy (Z.land content_type 0x00030000) then "Theme"
  else if truthy (Z.land content_type 0x00090000) then "Video clip"
  else if truthy (Z.land content_type 0x000C0000) then "Game trailer"
  else if truthy (Z.land content_type 0x000D0000) then "XBox Live Arcade"
  else if truthy (Z.land content_type 0x00010000) then "Gamer profile"
  else if truthy (Z.land content_type 0x00020000) then "Gamer picture"
  else if truthy (Z.land content_type 0x00040000) then "System update"
  else if truthy (Z.land content_type 0x00080000) then "Full game demo"
  else "(unknown)".

(** The precedence list as the specification gives it, highest first, and
    classification as "the label of the first test that fires". *)
Definition content_type_tests : list (Z * string) :=
  [ (0x00000001, "Game save"); (0x00000002, "Game add-on");
    (0x00030000, "Theme"); (0x00090000, "Video clip");
    (0x000C0000, "Game trailer"); (0x000D0000, "XBox Live Arcade");
    (0x00010000, "Gamer profile"); (0x00020000, "Gamer picture");
    (0x00040000, "System update"); (0x00080000, "Full game demo") ]%string.

Fixpoint first_match (v : Z) (tests : list (Z * string)) : string :=
  match tests with
  | [] => "(unknown)"
  | (mask, label) :: tests' =>
      if Z.land v mask =? 0 then first_match v tests' else label
  end.

Definition classify_spec (v : Z) : string :=
  if v =? 0 then "(no type)" else first_match v content_type_tests.

(** ** [struct.unpack] *)

(** The byte at [k] of a buffer whose length has been checked. *)
Definition byte_at (b : list Z) (k : nat) : Z := nth k b 0.

Definition le16 (b : list Z) (k : nat) : Z :=
  byte_at b k + Z.shiftl (byte_at b (k + 1)) 8.
Definition be16 (b : list Z) (k : nat) : Z :=
  Z.shiftl (byte_at b k) 8 + byte_at b (k + 1).
Definition be32 (b : list Z) (k : nat) : Z :=
  Z.shiftl (byte_at b k) 24 + Z.shiftl (byte_at b (k + 1)) 16
  + Z.shiftl (byte_at b (k + 2)) 8 + byte_at b (k + 3).

(** [struct.unpack("<40sBHBHBHB", b)]; [None] stands for [struct.error],
    raised when [b] is not exactly 50 bytes long. *)
Definition unpack_40sBHBHBHB (b : list Z)
  : option (list Z * Z * Z * Z * Z * Z * Z * Z) :=
  if (length b =? 50)%nat
  then Some (take 40 b, byte_at b 40, le16 b 41, byte_at b 43,
             le16 b 44, byte_at b 46, le16 b 47, byte_at b 49)
  else None.

(** [struct.unpack(">HLLL", b)], 14 bytes. *)
Definition unpack_HLLL (b : list Z) : option (Z * Z * Z * Z) :=
  if (length b =? 14)%nat
  then Some (be16 b 0, be32 b 2, be32 b 6, be32 b 10)
  else None.

(** [struct.unpack(">L", b)], 4 bytes. *)
Definition unpack_L (b : list Z) : option Z :=
  if (length b =? 4)%nat then Some (be32 b 0) else None.

(** [struct.unpack("<H", b)], 2 bytes. *)
Definition unpack_H_le (b : list Z) : option Z :=
  if (length b =? 2)%nat then Some (le16 b 0) else None.

(** ** Loops with [continue] and [break] *)

(** [for x in l: body] where the body updates the loop's variables [s].
    In every body below [continue] and [break] come before the first
    update, so the variables are those the iteration started with. *)
Fixpoint for_loop {A S} (l : list A) (body : A -> S -> M S) (s : S) : M S :=
  match l with
  | [] => mret s
  | x :: l' =>
      match body x s with
      | (t, inr s') => prepend t (for_loop l' body s')
      | (t, inl Continue) => prepend t (for_loop l' body s)
      | (t, inl Break) => (t, inr s)
      | (t, inl (Raise e)) => (t, inl (Raise e))
      end
  end.

(** ** The hash table: [write_common_part], "table of SHA1 hashes" *)

(** The body of [for i in range(len(buf) // 24)]; the loop's variable is
    [numempty]. *)
Definition hash_entry (buf : list Z) (i : Z) (numempty : Z) : M Z :=
  let entry := slice buf (i * 24) (i * 24 + 24) in
  if count 0 entry <? 24 then
    numempty ← (if 0 <? numempty
                then txt_write2 (10 :: lit "Empty entries:") numempty;;
                     mret 0
                else mret numempty);
    txt_write (lit "Hash (hex):");;
    for_each (seqZ 0 20)
      (fun j => b ← orelse (index entry j) IndexError; txt_write (hex b));;
    j ← orelse (unpack_L (slice entry 20 24)) StructError;
    txt_write (10 :: lit "Entry id:" ++ hex j);;
    mret numempty
  else mret (numempty + 1).

(** From [numempty = 0] to [txtfile.close()], for [txtfile != None];
    [buf] is what [infile.read(start - png2stop)] returned. *)
Definition scan_hash_table (buf : list Z) : M unit :=
  _ ← for_loop (seqZ 0 (len buf / 24)) (hash_entry buf) 0;
  txt_write (10 :: lit "Trailing data (hex):");;
  for_each (drop (Z.to_nat (len buf - len buf mod 24)) buf)
    (fun i => txt_write (hex i));;
  emit ETxtNewline;;
  emit ETxtClose.

(** ** The directory scan: [fill_directory] *)

(** The messages printed for a record that is skipped. *)
Definition msg_namelen (nlen : Z) : list Z :=
  lit "Filename length (" ++ fmt_i nlen ++ lit ") out of range, skipping file.".
Definition msg_clustsize (clustsize1 clustsize2 : Z) : list Z :=
  lit "Cluster sizes don't match (" ++ fmt_i clustsize1 ++ lit " != "
  ++ fmt_i clustsize2 ++ lit "), skipping file.".
Definition msg_startclust : list Z :=
  lit "Starting cluster must be 1 or greater, skipping file.".
Definition msg_filelen (filelen clustsize1 : Z) : list Z :=
  lit "File length (" ++ fmt_i filelen
  ++ lit ") is greater than the size in clusters (" ++ fmt_i clustsize1
  ++ lit "), skipping file.".

(** The variables the scan updates: the dictionary [paths] and
    [oldpathind]. *)
Record fd_state := FdState { paths : gmap Z (list Z); oldpathind : Z }.

(** The variables when the scan starts: [paths = {0xFFFF: ""}] and
    [oldpathind = 0xFFFF]. *)
Definition fd_init : fd_state := FdState {[ 0xFFFF := [] ]} 0xFFFF.

(** [d[k]]; a missing key raises [KeyError]. *)
Definition dict_get (d : gmap Z (list Z)) (k : Z) : M (list Z) :=
  orelse (d !! k) (KeyError k).

(** [for _ in range(path.count("/")): os.chdir("..")] *)
Definition chdir_up (path : list Z) : M unit :=
  for_each (seqZ 0 (count 47 path)) (fun _ => os_chdir (lit "..")).

Section fill_directory.

(** [infile] is the whole archive; [txtfile] tells whether the text file is
    there ([txtfile != None]); the others are the function's arguments. *)
Variables (infile : list Z) (txtfile : bool) (contents : list Z)
          (firstclust : Z) (makedir : bool) (start offset : Z).

(** [infile.seek(pos)]; a negative position is refused. *)
Definition infile_seek (pos : Z) : M unit :=
  if pos <? 0 then leave (Raise SeekError) else emit (ESeek pos).

(** [infile.read(n)] with the file position at [pos]: up to [n] bytes,
    fewer at the end of the file. *)
Definition infile_read (pos n : Z) : M (list Z) :=
  emit (ERead n);;
  mret (take (Z.to_nat n) (drop (Z.to_nat pos) infile)).

(** The block reading loop, [while filelen > 0]. *)
Equations read_blocks (buf : list Z) (startclust adstart filelen : Z)
  : M (list Z) by wf (Z.to_nat filelen) lt :=
  read_blocks buf startclust adstart filelen with inspect (0 <? filelen) => {
    | exist _ true Hg =>
        let realstart := adstart + get_cluster startclust offset in
        infile_seek realstart;;
        chunk ← infile_read realstart (Z.min 0x1000 filelen);
        read_blocks (buf ++ chunk) (startclust + 1) (adstart + 0x1000)
                    (filelen - 0x1000);
    | exist _ false _ => mret buf }.
Next Obligation. apply Z.ltb_lt in Hg. lia. Qed.

(** From [if pathind != oldpathind] to [do_utime]: what is done with a
    record that passed every check. *)
Definition materialize (i : Z) (st : fd_state) (outname : list Z)
    (namelen startclust pathind filelen dati1 dati2 : Z) : M fd_state :=
  st ← (if negb (pathind =? oldpathind st) then
          old ← dict_get (paths st) (oldpathind st);
          chdir_up old;;
          new ← dict_get (paths st) pathind;
          os_chdir new;;
          mret (FdState (paths st) pathind)
        else mret st);
  st ← (if Z.land namelen 0x80 =? 0x80 then
          parent ← dict_get (paths st) pathind;
          let paths' := <[ i := parent ++ outname ++ lit "/" ]> (paths st) in
          do_mkdir outname;;
          mret (FdState paths' (oldpathind st))
        else
          let adstart := startclust * 0x1000 + start in
          when txtfile (txt_write (lit "Starting: advertized" ++ hex adstart));;
          buf ← read_blocks [] startclust adstart filelen;
          open_write outname buf;;
          mret st);
  do_utime outname dati2 dati1;;
  mret st.

(** The body of [for i in range(0x1000 * firstclust // 64)]. *)
Definition fd_body (i : Z) (st : fd_state) : M fd_state :=
  let cur := slice contents (i * 64) ((i + 1) * 64) in
  b ← orelse (index cur 40) IndexError;
  if b =? 0 then leave Break else
  '(outname, namelen, clustsize1, val1, clustsize2, val2, startclust, val3)
    ← orelse (unpack_40sBHBHBHB (slice cur 0 50)) StructError;
  let clustsize1 := clustsize1 + Z.shiftl val1 16 in
  let clustsize2 := clustsize2 + Z.shiftl val2 16 in
  let startclust := startclust + Z.shiftl val3 16 in
  '(pathind, filelen, dati1, dati2)
    ← orelse (unpack_HLLL (slice cur 50 64)) StructError;
  if negb makedir then leave Continue else
  let nlen := Z.land namelen (Z.lnot 0xC0) in
  if (nlen <? 1) || (40 <? nlen) then
    print (msg_namelen nlen);;
    leave Continue
  else
  outname ← orelse (utf8_decode (slice outname 0 nlen)) UnicodeDecodeError;
  when txtfile
    (txt_write (if Z.land namelen 0x80 =? 0x80
                then lit "Directory" else lit "File");;
     txt_write (lit "name:" ++ outname);;
     when (Z.land namelen 0x40 =? 0x40)
       (txt_write (lit "Bit 6 of namelen is set.")));;
  if negb (clustsize1 =? clustsize2) then
    print (msg_clustsize clustsize1 clustsize2);;
    leave Continue
  else
  if (startclust <? 1) && (Z.land namelen 0x80 =? 0) then
    print msg_startclust;;
    leave Continue
  else
  if 0x1000 * clustsize1 <? filelen then
    print (msg_filelen filelen clustsize1);;
    leave Continue
  else
  materialize i st outname namelen startclust pathind filelen dati1 dati2.

(** The scan of the first [n] records, from the initial [paths] and
    [oldpathind]. *)
Definition fd_scan (n : Z) : M fd_state :=
  for_loop (seqZ 0 n) fd_body fd_init.

(** [def fill_directory(infile, txtfile, contents, firstclust, makedir,
    start, offset)] *)
Definition fill_directory : M unit :=
  st ← fd_scan (0x1000 * firstclust / 64);
  old ← dict_get (paths st) (oldpathind st);
  chdir_up old.

End fill_directory.

(** ** Questions to the user: [nice_open_file], [nice_open_dir] *)

(** [len(answer) > 0 and answer[0] in ["Y", "y"]] *)
Definition says_yes (answer : list Z) : bool :=
  (0 <? len answer)
  && match answer with c :: _ => mem c [89; 121] | [] => false end.

(** [def nice_open_file(filename)]; [isfile] is what [os.path.isfile]
    says of the name and [answer] what the user types when asked. *)
Definition nice_open_file (isfile : bool) (answer : list Z) (filename : list Z)
  : M bool :=
  if isfile then
    print (filename ++ lit " already exists, overwrite? (y/n)");;
    mret (says_yes answer)
  else mret true.

(** [def nice_open_dir(dirname)], with [os.path.isdir] for [isdir]. *)
Definition nice_open_dir (isdir : bool) (answer : list Z) (dirname : list Z)
  : M bool :=
  if isdir then
    print (dirname
           ++ lit " already exists, ok to overwrite files in it? (y/n)");;
    mret (says_yes answer)
  else mret true.

(** ** The icons: [dump_png] and its two calls in [write_common_part] *)

(** [struct.unpack(">HLL", b)], 10 bytes. *)
Definition unpack_HLL (b : list Z) : option (Z * Z * Z) :=
  if (length b =? 10)%nat then Some (be16 b 0, be32 b 2, be32 b 6) else None.

(** [def dump_png(infile, pnglen, maxlen, pngid)]; [basename] is
    [os.path.basename(infile.name)] and [rest] the input from the file
    position on. *)
Definition dump_png (basename : list Z) (isfile : bool) (answer : list Z)
    (rest : list Z) (pnglen maxlen : Z) (pngid : list Z) : M unit :=
  if pnglen <=? maxlen then
    let outname := basename ++ lit "_" ++ pngid ++ lit ".png" in
    ok ← nice_open_file isfile answer outname;
    if ok : bool then
      let buf := fst (read_next pnglen rest) in
      emit (ERead pnglen);;
      print (lit "Writing PNG file " ++ outname);;
      open_write outname buf
    else mret tt
  else
    print (lit "PNG image " ++ pngid ++ lit " too large (" ++ fmt_i pnglen
           ++ lit " instead of maximal " ++ fmt_i maxlen
           ++ lit " bytes), file not written.").

(** [write_common_part], from [infile.seek(0x1710)] to the second
    [dump_png]; [data] is the whole archive, and the two pairs [isfile],
    [answer] are those of the two file names. *)
Definition dump_icons (basename : list Z) (isfile1 : bool) (answer1 : list Z)
    (isfile2 : bool) (answer2 : list Z) (txtfile : bool) (data : list Z)
    (png2stop : Z) : M unit :=
  emit (ESeek 0x1710);;
  let (header, rest) := read_next 10 (drop (Z.to_nat 0x1710) data) in
  emit (ERead 10);;
  '(val1, png1len, png2len) ← orelse (unpack_HLL header) StructError;
  when txtfile (txt_write (lit "Value:" ++ fmt_i val1));;
  when (0 <? png1len)
    (dump_png basename isfile1 answer1 rest png1len (0x571A - 0x171A) (lit "1"));;
  when (0 <? png2len)
    (emit (ESeek 0x571A);;
     dump_png basename isfile2 answer2 (drop (Z.to_nat 0x571A) data) png2len
       (png2stop - 0x571A) (lit "2")).

(** ** The directory area: [write_common_part], "entries are 64 bytes long" *)

(** [infile.seek(pos)] and [infile.read(n)] for [n >= 0], on the whole
    archive. *)
Definition seek_read (data : list Z) (pos n : Z) : M (list Z) :=
  infile_seek pos;;
  emit (ERead n);;
  mret (take (Z.to_nat n) (drop (Z.to_nat pos) data)).

(** From [infile.seek(start + 0x2F)] to the call of [fill_directory];
    [isdir] and [answer] are those of the directory name. *)
Definition directory_phase (basename : list Z) (isdir : bool) (answer : list Z)
    (txtfile : bool) (data : list Z) (png2stop start : Z) : M unit :=
  b ← seek_read data (start + 0x2F) 2;
  firstclust ← orelse (unpack_H_le b) StructError;
  buf ← seek_read data start (0x1000 * firstclust);
  let outname := basename ++ lit ".dir" in
  makedir ← nice_open_dir isdir answer outname;
  when makedir
    (print (lit "Creating and filling content directory " ++ outname);;
     do_mkdir outname;;
     os_chdir outname);;
  let offset := if (png2stop =? 0xB000) && (start =? 0xC000)
                then 0x1000 else 0x2000 in
  fill_directory data txtfile buf firstclust makedir start offset.

(** ** The master hash: [check_sha1] *)

(** [ord(i)] for an element [i] of a [bytes] value: the elements of
    [bytes] are integers, and [ord] takes a string of length one. *)
Definition ord_of_int (i : Z) : M Z := leave (Raise TypeError).

(** [hexdigest()]: two lower-case hexadecimal digits for each byte. *)
Definition hexdigit (d : Z) : Z := if d <? 10 then 48 + d else 87 + d.
Definition hexdigest (digest : list Z) : list Z :=
  flat_map (fun b => [hexdigit (b / 16); hexdigit (b mod 16)]) digest.

Section check_sha1.

(** [hashlib.sha1(b).digest()] *)
Variable sha1_digest : list Z -> list Z.

(** [def check_sha1(sha1, entry, infile, start, end)]; [data] is the whole
    archive. *)
Definition check_sha1 (sha1 : list Z) (entry : Z) (data : list Z)
    (start end_ : Z) : M (list Z) :=
  chunk ← seek_read data start (end_ - start);
  let found_digest := sha1_digest chunk in
  let ret := lit "SHA1 " ++ hex entry ++ lit " " in
  if decide (found_digest = sha1) then
    mret (ret ++ lit "ok (" ++ hexdigest found_digest ++ lit ")")
  else
    hexdig ← for_loop sha1
               (fun i hexdig =>
                  o ← ord_of_int i;
                  let val := if o <? 10 then lit "0" else [] in
                  let val := val ++ drop 2 (hex i) in
                  mret (hexdig ++ val))
               [];
    mret (ret ++ lit "wrong (should be " ++ hexdig ++ lit " actual "
          ++ hexdigest found_digest ++ lit ")").

End check_sha1.

(** ** The reads of a file's blocks, as the specification lists them *)

(** The [j]-th chunk of a file of [filelen] bytes advertised at [adstart]
    with first cluster [startclust]: where it is read and how much. *)
Definition chunk_pos (adstart startclust offset j : Z) : Z :=
  adstart + 0x1000 * j + get_cluster (startclust + j) offset.
Definition chunk_size (filelen j : Z) : Z := Z.min 0x1000 (filelen - 0x1000 * j).

(** The first [n] chunk reads, and the bytes they return. *)
Definition chunk_reads (adstart startclust filelen offset n : Z) : list event :=
  flat_map (fun j => [ESeek (chunk_pos adstart startclust offset j);
                      ERead (chunk_size filelen j)])
           (seqZ 0 n).
Definition chunk_data (infile : list Z) (adstart startclust filelen offset n : Z)
  : list Z :=
  flat_map (fun j => let pos := chunk_pos adstart startclust offset j in
                     slice infile pos (pos + chunk_size filelen j))
           (seqZ 0 n).

(** ** The text slots, as the specification lists them *)

(** The [i]-th of the 256-byte slots that follow the file position. *)
Definition slot (rest : list Z) (i : nat) : list Z :=
  slice rest (0x100 * Z.of_nat i) (0x100 * Z.of_nat i + 0x100).

(** The line written for a language and the text of its slot: none when
    nothing is left of the text after stripping. *)
Definition info_line (name text : list Z) : list event :=
  match strip_blanks text with
  | [] => []
  | info => [ETxtWrite (name ++ lit ":" ++ info)]
  end.

(** ** The fields of a directory record *)

(** What [fd_body] unpacks from a 64-byte record [cur]. *)
Definition rec_name (cur : list Z) : list Z := take 40 cur.
Definition rec_namelen (cur : list Z) : Z := byte_at cur 40.
Definition rec_clustsize1 (cur : list Z) : Z :=
  le16 cur 41 + Z.shiftl (byte_at cur 43) 16.
Definition rec_clustsize2 (cur : list Z) : Z :=
  le16 cur 44 + Z.shiftl (byte_at cur 46) 16.
Definition rec_startclust (cur : list Z) : Z :=
  le16 cur 47 + Z.shiftl (byte_at cur 49) 16.
Definition rec_pathind (cur : list Z) : Z := be16 cur 50.
Definition rec_filelen (cur : list Z) : Z := be32 cur 52.
Definition rec_dati1 (cur : list Z) : Z := be32 cur 56.
Definition rec_dati2 (cur : list Z) : Z := be32 cur 60.

(** The name length with the two flag bits masked off, and the flags. *)
Definition rec_nlen (cur : list Z) : Z := Z.land (rec_namelen cur) (Z.lnot 0xC0).
Definition rec_is_dir (cur : list Z) : bool :=
  Z.land (rec_namelen cur) 0x80 =? 0x80.

(** The first [nlen] bytes of the name field. *)
Definition rec_rawname (cur : list Z) : list Z :=
  slice (rec_name cur) 0 (rec_nlen cur).

(** The [i]-th record of a directory blob. *)
Definition record (contents : list Z) (i : Z) : list Z :=
  slice contents (i * 64) ((i + 1) * 64).

(** The invariants the scan checks on a record. *)
Definition nlen_bad (cur : list Z) : Prop := rec_nlen cur < 1 \/ 40 < rec_nlen cur.
Definition violated (cur : list Z) : Prop :=
  nlen_bad cur
  \/ rec_clustsize1 cur <> rec_clustsize2 cur
  \/ (rec_startclust cur < 1 /\ rec_is_dir cur = false)
  \/ 0x1000 * rec_clustsize1 cur < rec_filelen cur.

(** The lines about a record's name in the text file. *)
Definition name_lines (txtfile : bool) (cur outname : list Z) : list event :=
  if txtfile then
    [ETxtWrite (if rec_is_dir cur then lit "Directory" else lit "File");
     ETxtWrite (lit "name:" ++ outname)]
    ++ (if Z.land (rec_namelen cur) 0x40 =? 0x40
        then [ETxtWrite (lit "Bit 6 of namelen is set.")] else [])
  else [].

(** ** What the calls of the scan carry *)


(** An event that is not a write to the text file. *)
Definition not_text (e : event) : Prop :=
  match e with
  | ETxtWrite _ | ETxtNewline | ETxtClose => False
  | _ => True
  end.

(** The two icon lengths the header at 0x1710 declares, and the names of
    the two icon files. *)
Definition png1len (data : list Z) : Z := be32 (slice data 0x1710 0x171A) 2.
Definition png2len (data : list Z) : Z := be32 (slice data 0x1710 0x171A) 6.
Definition icon_name (basename pngid : list Z) : list Z :=
  basename ++ lit "_" ++ pngid ++ lit ".png".

(** What the icon phase may do on the output side: write the first icon
    file with the [png1len] bytes that follow the header at 0x171A, when
    they end by 0x571A, or the second with the [png2len] bytes from
    0x571A, when they end by [png2stop]; and nothing else. *)
Definition icon_write (basename data : list Z) (png2stop : Z) (e : event)
  : Prop :=
  match e with
  | EOpenWrite name buf =>
      (name = icon_name basename (lit "1")
       /\ 0 < png1len data <= 0x571A - 0x171A
       /\ buf = slice data 0x171A (0x171A + png1len data))
      \/ (name = icon_name basename (lit "2")
          /\ 0 < png2len data <= png2stop - 0x571A
          /\ buf = slice data 0x571A (0x571A + png2len data))
  | EMkdir _ | EChdir _ | EUtime _ _ _ => False
  | _ => True
  end.

(** The user lets a file be written: it is not there, or the answer is
    yes. *)
Definition permitted (isfile : bool) (answer : list Z) : Prop :=
  isfile = false \/ says_yes answer = true.

(** Every event of a computation satisfies [P]. *)
Definition events_all (P : event -> Prop) {A} (m : M A) : Prop :=
  Forall P (fst m).

(** What holds of the scan's variables between two records: [oldpathind]
    is among the keys of [paths], no path in [paths] has a NUL, and only
    the root's key 0xFFFF has the empty path. *)
Definition fd_inv (st : fd_state) : Prop :=
  is_Some (paths st !! oldpathind st)
  /\ forall k p, paths st !! k = Some p ->
                 existsb (Z.eqb 0) p = false /\ (p = [] -> k = 0xFFFF).

(** The ways [fill_directory] can fail on a blob of which it scans [limit]
    records: on a blob that ends before them, on a name that is not UTF-8,
    on the path index of a record, on a refused seek, on a name with an
    embedded NUL, or on the change to the empty path of the root. *)
Definition fd_failure (contents : list Z) (limit : Z) (e : exn) : Prop :=
  ((e = IndexError \/ e = StructError) /\ len contents < 64 * limit)
  \/ (e = UnicodeDecodeError
      /\ exists i, 0 <= i < limit
                   /\ utf8_decode (rec_rawname (record contents i)) = None)
  \/ (exists i, 0 <= i < limit /\ e = KeyError (rec_pathind (record contents i)))
  \/ e = SeekError
  \/ (e = ValueError
      /\ exists i name,
           0 <= i < limit
           /\ utf8_decode (rec_rawname (record contents i)) = Some name
           /\ In 0 name)
  \/ (e = FileNotFoundError
      /\ exists i, 0 <= i < limit /\ rec_pathind (record contents i) = 0xFFFF).

(** ** The report of the hash table, entry by entry *)

(** The [i]-th 24-byte entry of the table. *)
Definition hash_at (buf : list Z) (i : Z) : list Z :=
  slice buf (i * 24) (i * 24 + 24).

(** An entry is used when not all of its bytes are zero. *)
Definition used (entry : list Z) : Prop := count 0 entry < 24.

(** What is written for a used entry, and after the last entry. *)
Definition entry_report (entry : list Z) : list event :=
  ETxtWrite (lit "Hash (hex):")
  :: map (fun b => ETxtWrite (hex b)) (take 20 entry)
  ++ [ETxtWrite (10 :: lit "Entry id:" ++ hex (be32 entry 20))].
Definition trailing_report (buf : list Z) : list event :=
  ETxtWrite (10 :: lit "Trailing data (hex):")
  :: map (fun b => ETxtWrite (hex b))
       (drop (Z.to_nat (len buf - len buf mod 24)) buf)
  ++ [ETxtNewline; ETxtClose].

(** ** Sample inputs *)

(** A used entry of the hash table: digest bytes 1 to 20, entry id 7. *)
Definition used_entry : list Z :=
  [1; 2; 3; 4; 5; 6; 7; 8; 9; 10; 11; 12; 13; 14; 15; 16; 17; 18; 19; 20;
   0; 0; 0; 7].

(** ** The checks of the scan, on the fields of a record *)

(** What is done with a record [cur] at index [i] once it is unpacked and
    [makedir] holds: the four checks in the order of the code, the name
    being decoded after the first. *)
Definition checked (infile : list Z) (txtfile : bool) (start offset : Z)
    (i : Z) (st : fd_state) (cur : list Z) : M fd_state :=
  if (rec_nlen cur <? 1) || (40 <? rec_nlen cur) then
    ([EPrint (msg_namelen (rec_nlen cur))], inl Continue)
  else
    match utf8_decode (rec_rawname cur) with
    | None => ([], inl (Raise UnicodeDecodeError))
    | Some outname =>
        prepend (name_lines txtfile cur outname)
          (if negb (rec_clustsize1 cur =? rec_clustsize2 cur) then
             ([EPrint (msg_clustsize (rec_clustsize1 cur) (rec_clustsize2 cur))],
              inl Continue)
           else if (rec_startclust cur <? 1) && negb (rec_is_dir cur) then
             ([EPrint msg_startclust], inl Continue)
           else if 0x1000 * rec_clustsize1 cur <? rec_filelen cur then
             ([EPrint (msg_filelen (rec_filelen cur) (rec_clustsize1 cur))],
              inl Continue)
           else
             materialize infile txtfile start offset i st outname
               (rec_namelen cur) (rec_startclust cur) (rec_pathind cur)
               (rec_filelen cur) (rec_dati1 cur) (rec_dati2 cur))
    end.

(** Directory records: name field (40 bytes), name length and flags,
    two cluster sizes, first cluster (each 2 + 1 bytes, low bytes first),
    path index (2 bytes), length and two time stamps (4 bytes each, high
    byte first). *)

(** Directory "d" in the root (path index 0xFFFF). *)
Definition sample_dir : list Z :=
  [100] ++ replicate 39 0
  ++ [0x81; 0; 0; 0; 0; 0; 0; 0; 0; 0; 0xFF; 0xFF;
      0; 0; 0; 0; 0; 0; 0; 1; 0; 0; 0; 2].

(** File "f" of 3 bytes in the directory of record 0: one cluster, first
    cluster 1. *)
Definition sample_file : list Z :=
  [102] ++ replicate 39 0
  ++ [0x01; 1; 0; 0; 1; 0; 0; 1; 0; 0; 0; 0;
      0; 0; 0; 3; 0; 0; 0; 1; 0; 0; 0; 2].

(** File "f" in the root whose two cluster sizes are 1 and 2. *)
Definition sample_mismatch : list Z :=
  [102] ++ replicate 39 0
  ++ [0x01; 1; 0; 0; 2; 0; 0; 1; 0; 0; 0xFF; 0xFF;
      0; 0; 0; 3; 0; 0; 0; 1; 0; 0; 0; 2].

(** The same with a name that is not UTF-8: the single byte 0xFF. *)
Definition sample_undecodable : list Z :=
  [255] ++ replicate 39 0
  ++ [0x01; 1; 0; 0; 2; 0; 0; 1; 0; 0; 0xFF; 0xFF;
      0; 0; 0; 3; 0; 0; 0; 1; 0; 0; 0; 2].

(** File "f" of 3 bytes in the root: one cluster, first cluster 1. *)
Definition sample_root_file : list Z :=
  [102] ++ replicate 39 0
  ++ [0x01; 1; 0; 0; 1; 0; 0; 1; 0; 0; 0xFF; 0xFF;
      0; 0; 0; 3; 0; 0; 0; 1; 0; 0; 0; 2].

(** An archive with its directory area at 0xC000: that file record, the
    rest of the first 4096 bytes of the area zero, then the data "789" of
    the file (as byte values) in cluster 1. *)
Definition sample_archive : list Z :=
  replicate (Z.to_nat 0xC000) 0 ++ sample_root_file
  ++ replicate (Z.to_nat (4096 - 64)) 0 ++ [7; 8; 9].

(** An archive whose header at 0x1710 declares a first icon of 2 bytes and
    no second one. *)
Definition sample_icons : list Z :=
  replicate (Z.to_nat 0x1710) 0 ++ [0; 0; 0; 0; 0; 2; 0; 0; 0; 0] ++ [137; 80].

(** An archive whose byte 4096 starts the data "789" (as byte values). *)
Definition sample_infile : list Z := replicate 4096 0 ++ [7; 8; 9].

(** * Properties *)

(** ** The cluster-address correction *)

Lemma gc_while_step offset st :
  gc_while offset st
  = if gc_guard st then gc_while offset (gc_body offset st) else st.
Proof.
  rewrite gc_while_equation_1. unfold gc_while_unfold_clause_1.
  destruct (inspect (gc_guard st)) as [[] H]; simpl; rewrite H; reflexivity.
Qed.

Lemma gc_body_decreases offset st :
  gc_guard st = true ->
  0 <= gc_startclust (gc_body offset st) < gc_startclust st.
Proof.
  unfold gc_guard, gc_body; simpl; intros Hg. apply Z.leb_le in Hg.
  split; [apply Z.div_pos; lia | apply Z.div_lt; lia].
Qed.

Lemma gc_while_State offset c acc :
  gc_while offset (GcState c acc)
  = if 170 <=? c
    then gc_while offset (GcState (c / 170) (acc + (c / 170 + 1) * offset))
    else GcState c acc.
Proof. rewrite gc_while_step at 1. reflexivity. Qed.

(** Induction along the iterations of the loop. *)
Lemma gc_loop_ind offset (P : gc_state -> Prop) :
  (forall st, (gc_guard st = true -> P (gc_body offset st)) -> P st) ->
  forall st, P st.
Proof.
  intros Hstep st.
  remember (Z.to_nat (gc_startclust st)) as m eqn:Hm.
  revert st Hm. induction m as [m IH] using lt_wf_ind. intros st ->.
  apply Hstep. intros Hg.
  apply (IH (Z.to_nat (gc_startclust (gc_body offset st)))); [| reflexivity].
  pose proof (gc_body_decreases offset st Hg). lia.
Qed.

Lemma gc_while_exits offset st : gc_guard (gc_while offset st) = false.
Proof.
  induction st as [st IH] using (gc_loop_ind offset).
  rewrite gc_while_step. destruct (gc_guard st) eqn:Hg; auto.
Qed.

(** The loop computes what the worded definition describes ... *)
Lemma gc_while_correction s st :
  correction_spec s (gc_startclust st) (gc_rst st) (gc_rst (gc_while s st)).
Proof.
  induction st as [st IH] using (gc_loop_ind s).
  rewrite gc_while_step. destruct (gc_guard st) eqn:Hg.
  - apply correction_iter.
    + unfold gc_guard in Hg. apply Z.leb_le in Hg. exact Hg.
    + exact (IH eq_refl).
  - apply correction_done. unfold gc_guard in Hg.
    apply Z.leb_gt in Hg. exact Hg.
Qed.

(** ... and the worded definition has no other result. *)
Lemma correction_spec_gc_while s c acc r :
  correction_spec s c acc r -> gc_rst (gc_while s (GcState c acc)) = r.
Proof.
  induction 1 as [c acc Hlt | c acc r Hge _ IH].
  - rewrite gc_while_step. unfold gc_guard; simpl.
    destruct (Z.leb_spec 170 c); [lia | reflexivity].
  - rewrite gc_while_step. unfold gc_guard; simpl.
    destruct (Z.leb_spec 170 c); [exact IH | lia].
Qed.

Lemma log2_div170 c : 170 <= c -> Z.log2 (c / 170) < Z.log2 c.
Proof.
  intros Hc.
  assert (Hle : c / 170 <= c / 2) by (apply Z.div_le_compat_l; lia).
  assert (Hsh : c / 2 = Z.shiftr c 1)
    by (rewrite Z.shiftr_div_pow2; [reflexivity | lia]).
  assert (Hlog : Z.log2 (Z.shiftr c 1) = Z.max 0 (Z.log2 c - 1))
    by (apply Z.log2_shiftr; lia).
  assert (H7 : Z.log2 128 <= Z.log2 c) by (apply Z.log2_le_mono; lia).
  change (Z.log2 128) with 7 in H7.
  assert (Z.log2 (c / 170) <= Z.log2 (c / 2)) by (apply Z.log2_le_mono; exact Hle).
  rewrite Hsh, Hlog in *. lia.
Qed.

(** Fuel above the binary logarithm of [startclust] is enough, and the
    fuelled run then agrees with the loop. *)
Lemma gc_run_enough offset fuel st :
  (Z.to_nat (Z.log2 (gc_startclust st)) < fuel)%nat ->
  gc_run fuel offset st = Some (gc_while offset st).
Proof.
  revert st. induction fuel as [| fuel IH]; intros st Hf; [lia |].
  simpl. rewrite gc_while_step.
  destruct (gc_guard st) eqn:Hg; [| reflexivity].
  apply IH. unfold gc_guard in Hg. apply Z.leb_le in Hg.
  pose proof (log2_div170 _ Hg) as Hlog.
  pose proof (Z.log2_nonneg (gc_startclust st / 170)).
  unfold gc_body; simpl. lia.
Qed.

(** C1: for a nonnegative cluster index [c] and any block step [s],
    [get_cluster c s] is the value of the literal definition (accumulator
    0; while [c >= 170]: [c := c div 170], add [(c + 1) * s]); it is 0
    for [c < 170], and [get_cluster 170 s = 2 * s]. *)
Theorem get_cluster_literal (c s : Z) :
  0 <= c ->
  (forall r, correction_spec s c 0 r <-> get_cluster c s = r)
  /\ (c < 170 -> get_cluster c s = 0)
  /\ get_cluster 170 s = 2 * s.
Proof.
  intros _. split; [| split].
  - intros r. split.
    + apply correction_spec_gc_while.
    + intros <-. exact (gc_while_correction s (GcState c 0)).
  - intros Hlt. unfold get_cluster. rewrite gc_while_step.
    unfold gc_guard; simpl. destruct (Z.leb_spec 170 c); [lia | reflexivity].
  - unfold get_cluster. rewrite gc_while_State.
    change (170 <=? 170) with true. change (170 / 170) with 1. cbv iota.
    rewrite gc_while_State. change (170 <=? 1) with false. simpl. lia.
Qed.

Lemma get_cluster_literal_witness :
  correction_spec 4096 28900 0 (173 * 4096)
  /\ get_cluster 169 4096 = 0.
Proof.
  split.
  - apply (get_cluster_literal 28900 4096); [lia | reflexivity].
  - apply (get_cluster_literal 169 4096); lia.
Defined.

(** C2, as the specification has it, fails: one division takes 340 to 2,
    and the term added is [(2 + 1) * s]. *)
Lemma get_cluster_340_not_double : get_cluster 340 1 <> 2 * 1.
Proof. vm_compute. discriminate. Qed.

(** C2 (amended): [get_cluster 340 s = 3 * s] for every block step [s]. *)
Theorem get_cluster_340 (s : Z) : get_cluster 340 s = 3 * s.
Proof.
  unfold get_cluster. rewrite gc_while_State.
  change (170 <=? 340) with true. change (340 / 170) with 2. cbv iota.
  rewrite gc_while_State. change (170 <=? 2) with false. simpl. lia.
Qed.

(** C10: [get_cluster] terminates.  Every iteration of its loop replaces a
    value [c >= 170] by [c div 170], which is nonnegative and strictly
    smaller; run from a nonnegative [c], the loop leaves after at most
    [log2 c] iterations with the guard false, and what it has accumulated
    is the value of [get_cluster]. *)
Theorem get_cluster_terminates (c s : Z) :
  0 <= c ->
  (forall st, gc_guard st = true ->
     0 <= gc_startclust (gc_body s st) < gc_startclust st)
  /\ exists st,
       gc_run (S (Z.to_nat (Z.log2 c))) s (GcState c 0) = Some st
       /\ gc_guard st = false
       /\ gc_rst st = get_cluster c s.
Proof.
  intros _. split.
  - intros st. apply gc_body_decreases.
  - exists (gc_while s (GcState c 0)). split; [| split].
    + apply gc_run_enough. simpl. lia.
    + apply gc_while_exits.
    + reflexivity.
Qed.

Lemma get_cluster_terminates_witness :
  exists st,
    gc_run (S (Z.to_nat (Z.log2 28900))) 4096 (GcState 28900 0) = Some st
    /\ gc_guard st = false
    /\ gc_rst st = get_cluster 28900 4096.
Proof.
  apply (get_cluster_terminates 28900 4096). lia.
Defined.

(** ** The block reading loop *)

Lemma get_cluster_nonneg c offset : 0 <= offset -> 0 <= get_cluster c offset.
Proof.
  intros Hoff. unfold get_cluster.
  assert (H : forall st, 0 <= gc_rst st -> 0 <= gc_rst (gc_while offset st)).
  { intros st. induction st as [st IH] using (gc_loop_ind offset).
    intros Hst. rewrite gc_while_step. destruct (gc_guard st) eqn:Hg; [| exact Hst].
    apply (IH eq_refl). pose proof (gc_body_decreases offset st Hg) as Hd.
    unfold gc_body in *; simpl in *. nia. }
  apply H. simpl. lia.
Qed.

Lemma flat_map_seqZ_cons {A} (f : Z -> list A) n :
  0 < n ->
  flat_map f (seqZ 0 n) = f 0 ++ flat_map (fun j => f (1 + j)) (seqZ 0 (n - 1)).
Proof.
  intros Hn. rewrite seqZ_cons by exact Hn. simpl. f_equal.
  change (Z.succ 0) with (1 + 0). rewrite <- fmap_add_seqZ.
  replace (Z.pred n) with (n - 1) by lia.
  induction (seqZ 0 (n - 1)) as [| x l IH]; simpl; [reflexivity |].
  f_equal. exact IH.
Qed.

Lemma read_blocks_step infile offset buf startclust adstart filelen :
  read_blocks infile offset buf startclust adstart filelen
  = if 0 <? filelen then
      let realstart := adstart + get_cluster startclust offset in
      infile_seek realstart;;
      chunk ← infile_read infile realstart (Z.min 0x1000 filelen);
      read_blocks infile offset (buf ++ chunk) (startclust + 1)
                  (adstart + 0x1000) (filelen - 0x1000)
    else mret buf.
Proof.
  rewrite read_blocks_equation_1. unfold read_blocks_unfold_clause_1.
  destruct (inspect (0 <? filelen)) as [[] H]; simpl; rewrite H; reflexivity.
Qed.

Lemma chunk_shift adstart startclust filelen offset j :
  chunk_pos (adstart + 4096) (startclust + 1) offset j
  = chunk_pos adstart startclust offset (1 + j)
  /\ chunk_size (filelen - 4096) j = chunk_size filelen (1 + j).
Proof.
  unfold chunk_pos, chunk_size.
  replace (startclust + 1 + j) with (startclust + (1 + j)) by lia.
  split; [lia | f_equal; lia].
Qed.

Lemma chunk_reads_cons adstart startclust filelen offset n :
  0 < n ->
  chunk_reads adstart startclust filelen offset n
  = ESeek (adstart + get_cluster startclust offset)
    :: ERead (Z.min 4096 filelen)
    :: chunk_reads (adstart + 4096) (startclust + 1) (filelen - 4096) offset
         (n - 1).
Proof.
  intros Hn. unfold chunk_reads. rewrite flat_map_seqZ_cons by exact Hn.
  unfold chunk_pos at 1, chunk_size at 1.
  rewrite Z.mul_0_r, !Z.add_0_r, Z.sub_0_r. simpl. do 2 f_equal.
  apply flat_map_ext. intros j.
  destruct (chunk_shift adstart startclust filelen offset j) as [-> ->].
  reflexivity.
Qed.

Lemma chunk_data_cons infile adstart startclust filelen offset n :
  0 < n ->
  chunk_data infile adstart startclust filelen offset n
  = take (Z.to_nat (Z.min 4096 filelen))
      (drop (Z.to_nat (adstart + get_cluster startclust offset)) infile)
    ++ chunk_data infile (adstart + 4096) (startclust + 1) (filelen - 4096)
         offset (n - 1).
Proof.
  intros Hn. unfold chunk_data. rewrite flat_map_seqZ_cons by exact Hn.
  f_equal.
  - unfold chunk_pos, chunk_size, slice.
    rewrite Z.mul_0_r, !Z.add_0_r, Z.sub_0_r. cbv zeta.
    replace (adstart + get_cluster startclust offset + Z.min 4096 filelen
             - (adstart + get_cluster startclust offset))
      with (Z.min 4096 filelen) by lia.
    reflexivity.
  - apply flat_map_ext. intros j.
    destruct (chunk_shift adstart startclust filelen offset j) as [-> ->].
    reflexivity.
Qed.

(** What the loop does when no seek is refused: the reads of the
    [ceil(filelen / 4096)] chunks, in order, and their bytes appended to
    the buffer. *)
Lemma read_blocks_trace infile offset :
  0 <= offset ->
  forall (m : nat) buf startclust adstart filelen,
    0 <= adstart ->
    (filelen + 4095) / 4096 <= Z.of_nat m ->
    let n := (filelen + 4095) / 4096 in
    read_blocks infile offset buf startclust adstart filelen
    = (chunk_reads adstart startclust filelen offset n,
       inr (buf ++ chunk_data infile adstart startclust filelen offset n)).
Proof.
  intros Hoff.
  assert (Hstop : forall buf startclust adstart filelen,
            filelen <= 0 ->
            let n := (filelen + 4095) / 4096 in
            read_blocks infile offset buf startclust adstart filelen
            = (chunk_reads adstart startclust filelen offset n,
               inr (buf ++ chunk_data infile adstart startclust filelen offset n))).
  { intros buf startclust adstart filelen Hle n. rewrite read_blocks_step.
    destruct (Z.ltb_spec 0 filelen); [lia |].
    assert (Hn : n <= 0).
    { subst n. apply Z.lt_succ_r. apply Z.div_lt_upper_bound; lia. }
    unfold chunk_reads, chunk_data. rewrite (seqZ_nil 0 n) by exact Hn.
    simpl. rewrite app_nil_r. reflexivity. }
  induction m as [| m IH]; intros buf startclust adstart filelen Had Hm n.
  - apply Hstop.
    destruct (Z.le_gt_cases filelen 0) as [|Hpos]; [assumption |].
    assert (1 <= (filelen + 4095) / 4096)
      by (apply Z.div_le_lower_bound; lia). lia.
  - destruct (Z.le_gt_cases filelen 0) as [Hle | Hpos]; [apply Hstop, Hle |].
    rewrite read_blocks_step.
    destruct (Z.ltb_spec 0 filelen); [| lia].
    assert (Hn1 : (filelen - 4096 + 4095) / 4096 = n - 1).
    { subst n.
      replace (filelen + 4095) with (filelen - 4096 + 4095 + 1 * 4096) by lia.
      rewrite Z.div_add by lia. lia. }
    assert (Hnpos : 0 < n) by (subst n; apply Z.div_str_pos; lia).
    pose proof (get_cluster_nonneg startclust offset Hoff) as Hgc.
    cbv zeta. unfold infile_seek.
    destruct (Z.ltb_spec (adstart + get_cluster startclust offset) 0); [lia |].
    specialize (IH (buf ++ take (Z.to_nat (Z.min 4096 filelen))
                         (drop (Z.to_nat (adstart + get_cluster startclust offset))
                               infile))
                   (startclust + 1) (adstart + 4096) (filelen - 4096)).
    cbv zeta in IH. rewrite Hn1 in IH.
    unfold mbind, M_bind, bind, infile_read, emit, prepend, mret, M_ret, ret;
      simpl.
    rewrite IH by lia. simpl.
    rewrite (chunk_reads_cons _ _ _ _ n) by exact Hnpos.
    rewrite (chunk_data_cons _ _ _ _ _ n) by exact Hnpos.
    rewrite <- app_assoc. reflexivity.
Qed.

Lemma chunk_reads_last adstart startclust filelen offset n :
  0 < n ->
  last (chunk_reads adstart startclust filelen offset n)
  = Some (ERead (chunk_size filelen (n - 1))).
Proof.
  intros Hn. unfold chunk_reads.
  replace n with ((n - 1) + 1) at 1 by lia.
  rewrite seqZ_app by lia. rewrite flat_map_app.
  rewrite (seqZ_cons _ 1) by lia. rewrite (seqZ_nil _ (Z.pred 1)) by lia.
  simpl. rewrite ?app_nil_r.
  change (?l ++ [?a; ?b]) with (l ++ a :: [b]).
  rewrite last_app_cons. simpl. rewrite Z.add_0_l. reflexivity.
Qed.

(** C3: for a file of positive length [L] (and nonnegative start and block
    step, so that no seek is refused) the reader's loop issues, for
    [j = 0, 1, ...], a seek to [adstart + 4096 j + get_cluster (startclust
    + j) offset] and a read of [min 4096 (L - 4096 j)] bytes, and returns
    the bytes read; it stops after the [n]-th chunk, the first with
    [L - 4096 n <= 0].  For [L = 4096 k], [k >= 1], that is [k] reads, the
    last of 4096 bytes; for [L = 4096 k + r], [0 < r < 4096], [k + 1]
    reads, the last of [r] bytes. *)
Theorem read_blocks_chunks infile offset buf startclust adstart L :
  0 < L -> 0 <= adstart -> 0 <= offset ->
  let n := (L + 4095) / 4096 in
  let reads := chunk_reads adstart startclust L offset n in
  read_blocks infile offset buf startclust adstart L
  = (reads, inr (buf ++ chunk_data infile adstart startclust L offset n))
  /\ L - 4096 * n <= 0 < L - 4096 * (n - 1)
  /\ (forall k, 1 <= k -> L = 4096 * k ->
        n = k /\ last reads = Some (ERead 4096))
  /\ (forall k r, 0 <= k -> 0 < r < 4096 -> L = 4096 * k + r ->
        n = k + 1 /\ last reads = Some (ERead r)).
Proof.
  intros HL Had Hoff n reads.
  assert (Hn : 0 < n) by (subst n; apply Z.div_str_pos; lia).
  assert (Hbounds : 4096 * (n - 1) < L <= 4096 * n).
  { subst n. pose proof (Z.div_mod (L + 4095) 4096 ltac:(lia)).
    pose proof (Z.mod_pos_bound (L + 4095) 4096 ltac:(lia)). lia. }
  split; [| split; [| split]].
  - apply (read_blocks_trace infile offset Hoff (Z.to_nat n)); [exact Had |].
    fold n. lia.
  - lia.
  - intros k Hk HLk. assert (n = k) by lia. split; [assumption |].
    subst reads. rewrite chunk_reads_last by exact Hn.
    unfold chunk_size. do 2 f_equal. lia.
  - intros k r Hk Hr HLk. assert (n = k + 1) by lia. split; [assumption |].
    subst reads. rewrite chunk_reads_last by exact Hn.
    unfold chunk_size. do 2 f_equal. lia.
Qed.

Lemma read_blocks_chunks_witness :
  read_blocks [10; 11; 12; 13; 14] 4096 [] 1 0 5000
  = ([ESeek 0; ERead 4096; ESeek 4096; ERead 904], inr [10; 11; 12; 13; 14]).
Proof.
  apply (read_blocks_chunks [10; 11; 12; 13; 14] 4096 [] 1 0 5000); lia.
Defined.

(** ** The content type *)

(** C5: the label written for a content type is that of the first test, in
    the fixed order, whose mask has a bit in common with the value ("(no
    type)" for zero, "(unknown)" when no test fires); so 0x000B0000 is a
    "Theme", the test for 0x00030000 coming before those for "Video clip"
    and "Full game demo". *)
Theorem content_type_first_match (v : Z) :
  content_type_label v = classify_spec v
  /\ content_type_label 0x000B0000 = "Theme"%string
  /\ Z.land 0x000B0000 0x00090000 <> 0
  /\ Z.land 0x000B0000 0x00080000 <> 0.
Proof.
  split; [| split; [reflexivity | split; discriminate]].
  unfold content_type_label, classify_spec, content_type_tests, first_match,
    truthy.
  repeat match goal with
         | |- context [?x =? 0] => destruct (x =? 0); simpl
         end; reflexivity.
Qed.

(** ** Stripping blanks *)

Lemma lstrip_split chars s :
  exists pre,
    s = pre ++ lstrip chars s
    /\ Forall (fun c => mem c chars = true) pre
    /\ (forall c, head (lstrip chars s) = Some c -> mem c chars = false).
Proof.
  induction s as [| c s (pre & Heq & Hpre & Hhd)]; simpl.
  - exists []. repeat split; [constructor | discriminate].
  - destruct (mem c chars) eqn:Hc.
    + exists (c :: pre). simpl. split; [congruence |].
      split; [constructor; assumption | exact Hhd].
    + exists []. simpl. split; [reflexivity |].
      split; [constructor |]. intros c' [= <-]. exact Hc.
Qed.

Lemma last_rev_head {A} (l : list A) : last (rev l) = head l.
Proof.
  destruct l as [| x l]; [reflexivity |]. simpl. apply last_snoc.
Qed.

Lemma rstrip_split chars s :
  exists suf,
    s = rstrip chars s ++ suf
    /\ Forall (fun c => mem c chars = true) suf
    /\ (forall c, last (rstrip chars s) = Some c -> mem c chars = false).
Proof.
  unfold rstrip. destruct (lstrip_split chars (rev s)) as (pre & Heq & Hpre & Hhd).
  exists (rev pre). split; [| split].
  - rewrite <- rev_app_distr, <- Heq, rev_involutive. reflexivity.
  - apply Forall_forall. intros c Hc. rewrite Forall_forall in Hpre.
    apply Hpre. apply list_elem_of_In. apply in_rev.
    apply list_elem_of_In in Hc. exact Hc.
  - intros c. rewrite last_rev_head. apply Hhd.
Qed.

Lemma mem_lblanks_rblanks c : mem c lblanks = true -> mem c rblanks = true.
Proof. unfold rblanks. simpl. intros ->. apply orb_true_r. Qed.

(** What [strip_blanks] removes and what it leaves. *)
Lemma strip_blanks_split s :
  exists pre suf,
    s = pre ++ strip_blanks s ++ suf
    /\ Forall (fun c => mem c lblanks = true) pre
    /\ Forall (fun c => mem c rblanks = true) suf
    /\ (forall c, head (strip_blanks s) = Some c -> mem c lblanks = false)
    /\ (forall c, last (strip_blanks s) = Some c -> mem c rblanks = false).
Proof.
  unfold strip_blanks.
  destruct (rstrip_split rblanks s) as (suf & Hs & Hsuf & Hlast).
  destruct (lstrip_split lblanks (rstrip rblanks s)) as (pre & Hr & Hpre & Hhd).
  exists pre, suf. split; [| repeat split; assumption || idtac].
  - rewrite app_assoc, <- Hr. exact Hs.
  - intros c Hc. apply Hlast. rewrite Hr.
    rewrite last_app, Hc. reflexivity.
Qed.

Lemma bind_ok {A B} (t : list event) (a : A) (f : A -> M B) :
  ((t, inr a) : M A) ≫= f = prepend t (f a).
Proof. reflexivity. Qed.

Lemma bind_ret {A B} (a : A) (f : A -> M B) : mret a ≫= f = f a.
Proof.
  unfold mret, M_ret, ret, mbind, M_bind, bind, prepend. simpl.
  destruct (f a). reflexivity.
Qed.

Lemma bind_leave {A B} (t : list event) (c : ctl) (f : A -> M B) :
  ((t, inl c) : M A) ≫= f = (t, inl c).
Proof. reflexivity. Qed.

Lemma dump_info_loop_events langs :
  forall (k : nat) rest texts,
    Forall2 (fun i text => utf8_decode (slot rest i) = Some text)
            (seq k (length langs)) texts ->
    dump_info_loop langs (drop (k * 256) rest)
    = (flat_map (fun '(name, text) => ERead 0x100 :: info_line name text)
                (zip langs texts),
       inr (drop ((k + length langs) * 256) rest)).
Proof.
  induction langs as [| name langs IH]; intros k rest texts Hdec.
  - inversion Hdec; subst. simpl. rewrite Nat.add_0_r. reflexivity.
  - cbn [length seq] in Hdec.
    inversion Hdec as [| i text is' texts' Htext Hrest]; subst.
    assert (Hslot : take (Z.to_nat 256) (drop (k * 256) rest) = slot rest k).
    { unfold slot, slice. f_equal; [f_equal; lia | f_equal; lia]. }
    cbn [dump_info_loop read_next]. rewrite Hslot, Htext. cbn [orelse].
    unfold emit. rewrite !bind_ok.
    replace (drop (Z.to_nat 256) (drop (k * 256) rest))
      with (drop (S k * 256) rest)
      by (rewrite drop_drop; f_equal; lia).
    rewrite (IH (S k) rest texts' Hrest).
    replace (k + length (name :: langs))%nat with (S k + length langs)%nat
      by (cbn [length]; lia).
    rewrite bind_ret. cbn [zip zip_with flat_map].
    unfold info_line, when, txt_write, emit, len.
    destruct (strip_blanks text) as [| c info]; reflexivity.
Qed.

(** C9, as the specification has it, fails: a NUL at the beginning of a
    text is kept (and so is whatever follows it). *)
Lemma strip_blanks_keeps_leading_nul :
  ~ (forall s c, head (strip_blanks s) = Some c -> mem c rblanks = false).
Proof.
  intros H. specialize (H [0; 32; 97] 0 eq_refl). discriminate H.
Qed.

(** C9 (amended): from the end of a decoded text [strip_blanks] removes
    NUL, space, tab, newline, carriage return, vertical tab, form feed and
    0xFF; from the beginning it removes the same characters except NUL.
    [dump_info] writes, after the heading, one line for each of the nine
    slots, in the order of the languages, leaving out the slots of which
    nothing is left after stripping. *)
Theorem strip_blanks_dump_info (rest what : list Z) (texts : list (list Z)) :
  Forall2 (fun i text => utf8_decode (slot rest i) = Some text)
          (seq 0 9) texts ->
  (forall s, exists pre suf,
      s = pre ++ strip_blanks s ++ suf
      /\ Forall (fun c => mem c lblanks = true) pre
      /\ Forall (fun c => mem c rblanks = true) suf
      /\ (forall c, head (strip_blanks s) = Some c -> mem c lblanks = false)
      /\ (forall c, last (strip_blanks s) = Some c -> mem c rblanks = false))
  /\ dump_info rest what
     = (ETxtWrite ([10] ++ what ++ lit ":")
          :: flat_map (fun '(name, text) => ERead 0x100 :: info_line name text)
               (zip lang texts),
        inr (drop (9 * 256) rest))
  /\ (forall name text, strip_blanks text = [] -> info_line name text = []).
Proof.
  intros Hdec. split; [exact strip_blanks_split | split].
  - unfold dump_info, txt_write, emit. rewrite bind_ok.
    change (take 9 lang) with lang.
    pose proof (dump_info_loop_events lang 0 rest texts Hdec) as H.
    change (drop (0 * 256) rest) with rest in H. rewrite H. reflexivity.
  - intros name text H. unfold info_line. rewrite H. reflexivity.
Qed.

Lemma strip_blanks_dump_info_witness :
  dump_info [32; 0; 65; 32; 0] (lit "Titles")
  = ([ETxtWrite (10 :: lit "Titles:"); ERead 256;
      ETxtWrite (lit "English:" ++ [0; 65]);
      ERead 256; ERead 256; ERead 256; ERead 256; ERead 256; ERead 256;
      ERead 256; ERead 256],
     inr []).
Proof.
  apply (strip_blanks_dump_info [32; 0; 65; 32; 0] (lit "Titles")
           [[32; 0; 65; 32; 0]; []; []; []; []; []; []; []; []]).
  repeat constructor.
Defined.

(** ** The hash table *)

(** C4: the scan does not report every run of empty entries.  A run that
    ends the table is never counted: after one used entry and two empty
    ones the report has the entry and the (empty) remainder, and no count.
    And the count of a run that a used entry follows is written with a
    two-argument [write], which raises [TypeError]: on three empty
    entries, one used and two empty, the scan stops there with nothing
    written. *)
Theorem scan_hash_table_runs :
  scan_hash_table (used_entry ++ replicate 48 0)
  = ([ETxtWrite (lit "Hash (hex):")]
       ++ map (fun b => ETxtWrite (hex b)) (take 20 used_entry)
       ++ [ETxtWrite (10 :: lit "Entry id:0x7");
           ETxtWrite (10 :: lit "Trailing data (hex):");
           ETxtNewline; ETxtClose],
     inr tt)
  /\ scan_hash_table (replicate 72 0 ++ used_entry ++ replicate 48 0)
     = ([], inl (Raise TypeError)).
Proof. split; vm_compute; reflexivity. Qed.

(** ** The directory scan: one record *)

Lemma byte_at_take (cur : list Z) (n k : nat) :
  (k < n)%nat -> byte_at (take n cur) k = byte_at cur k.
Proof.
  intros Hk. unfold byte_at. rewrite nth_firstn.
  destruct (Nat.ltb_spec k n); [reflexivity | lia].
Qed.

Lemma byte_at_drop (cur : list Z) (n k : nat) :
  byte_at (drop n cur) k = byte_at cur (n + k).
Proof. unfold byte_at. apply nth_skipn. Qed.

Lemma index_byte_at (cur : list Z) (k : nat) :
  (k < length cur)%nat -> index cur (Z.of_nat k) = Some (byte_at cur k).
Proof.
  intros Hk. unfold index, byte_at.
  destruct (Z.ltb_spec (Z.of_nat k) 0); [lia |].
  rewrite Nat2Z.id, nth_lookup.
  destruct (lookup_lt_is_Some_2 cur k Hk) as [x ->]. reflexivity.
Qed.

Lemma unpack_head_record (cur : list Z) :
  length cur = 64%nat ->
  unpack_40sBHBHBHB (slice cur 0 50)
  = Some (rec_name cur, rec_namelen cur, le16 cur 41, byte_at cur 43,
          le16 cur 44, byte_at cur 46, le16 cur 47, byte_at cur 49).
Proof.
  intros Hlen. unfold unpack_40sBHBHBHB, slice.
  change (Z.to_nat (50 - 0)) with 50%nat. change (Z.to_nat 0) with 0%nat.
  rewrite drop_0.
  assert (Hl : length (take 50 cur) = 50%nat) by (rewrite length_take; lia).
  rewrite Hl. cbn [Nat.eqb].
  unfold rec_name, rec_namelen, le16.
  rewrite !byte_at_take by lia.
  rewrite take_take. reflexivity.
Qed.

Lemma unpack_tail_record (cur : list Z) :
  length cur = 64%nat ->
  unpack_HLLL (slice cur 50 64)
  = Some (rec_pathind cur, rec_filelen cur, rec_dati1 cur, rec_dati2 cur).
Proof.
  intros Hlen. unfold unpack_HLLL, slice.
  change (Z.to_nat (64 - 50)) with 14%nat. change (Z.to_nat 50) with 50%nat.
  assert (Hl : length (take 14 (drop 50 cur)) = 14%nat)
    by (rewrite length_take, length_drop; lia).
  rewrite Hl. cbn [Nat.eqb].
  unfold rec_pathind, rec_filelen, rec_dati1, rec_dati2, be16, be32.
  rewrite !byte_at_take by lia. rewrite !byte_at_drop. reflexivity.
Qed.

(** A whole record whose name length byte is not zero goes through the
    checks, when [makedir] holds. *)
Lemma fd_body_checked infile txtfile contents start offset i st :
  length (record contents i) = 64%nat ->
  rec_namelen (record contents i) <> 0 ->
  fd_body infile txtfile contents true start offset i st
  = checked infile txtfile start offset i st (record contents i).
Proof.
  intros Hlen Hnz. unfold fd_body. fold (record contents i).
  set (cur := record contents i) in *.
  assert (Hidx : index cur 40 = Some (rec_namelen cur))
    by (apply (index_byte_at cur 40); lia).
  rewrite Hidx. cbn [orelse]. rewrite bind_ret.
  destruct (Z.eqb_spec (rec_namelen cur) 0) as [| _]; [contradiction |].
  rewrite unpack_head_record by exact Hlen. cbn [orelse]. rewrite bind_ret.
  rewrite unpack_tail_record by exact Hlen. cbn [orelse]. rewrite bind_ret.
  cbn [negb]. unfold checked.
  fold (rec_clustsize1 cur) (rec_clustsize2 cur) (rec_startclust cur)
       (rec_nlen cur).
  destruct ((rec_nlen cur <? 1) || (40 <? rec_nlen cur)); [reflexivity |].
  fold (rec_rawname cur).
  destruct (utf8_decode (rec_rawname cur)) as [outname |];
    cbn [orelse]; [| reflexivity].
  rewrite bind_ret.
  assert (Hlines :
    when txtfile
      (txt_write (if Z.land (rec_namelen cur) 128 =? 128
                  then lit "Directory" else lit "File");;
       txt_write (lit "name:" ++ outname);;
       when (Z.land (rec_namelen cur) 64 =? 64)
         (txt_write (lit "Bit 6 of namelen is set.")))
    = (name_lines txtfile cur outname, inr tt)).
  { unfold name_lines, rec_is_dir. destruct txtfile; [| reflexivity].
    destruct (Z.land (rec_namelen cur) 64 =? 64); reflexivity. }
  rewrite Hlines, bind_ok. f_equal.
  destruct (negb (rec_clustsize1 cur =? rec_clustsize2 cur)); [reflexivity |].
  assert (Hdir : (Z.land (rec_namelen cur) 128 =? 0) = negb (rec_is_dir cur)).
  { unfold rec_is_dir.
    assert (Hbit : Z.land (rec_namelen cur) 128 = 0
                   \/ Z.land (rec_namelen cur) 128 = 128).
    { change 128 with (2 ^ 7).
      destruct (Z.testbit (rec_namelen cur) 7) eqn:Hb.
      - right. apply Z.bits_inj'. intros n Hn.
        rewrite Z.land_spec, Z.pow2_bits_eqb by lia.
        destruct (Z.eqb_spec 7 n) as [<- |]; [rewrite Hb |]; simpl;
          [reflexivity | apply andb_false_r].
      - left. apply Z.bits_inj'. intros n Hn.
        rewrite Z.land_spec, Z.pow2_bits_eqb, Z.bits_0 by lia.
        destruct (Z.eqb_spec 7 n) as [<- |]; [rewrite Hb |]; simpl;
          [reflexivity | apply andb_false_r]. }
    destruct Hbit as [-> | ->]; reflexivity. }
  rewrite Hdir.
  destruct ((rec_startclust cur <? 1) && negb (rec_is_dir cur)); [reflexivity |].
  destruct (4096 * rec_clustsize1 cur <? rec_filelen cur); reflexivity.
Qed.

Lemma for_loop_continue {A S} (x : A) (l : list A) (body : A -> S -> M S)
    (s : S) (t : list event) :
  body x s = (t, inl Continue) ->
  for_loop (x :: l) body s = prepend t (for_loop l body s).
Proof. intros H. simpl. rewrite H. reflexivity. Qed.

Lemma for_loop_raise {A S} (x : A) (l : list A) (body : A -> S -> M S)
    (s : S) (t : list event) (e : exn) :
  body x s = (t, inl (Raise e)) ->
  for_loop (x :: l) body s = (t, inl (Raise e)).
Proof. intros H. simpl. rewrite H. reflexivity. Qed.

(** C6, as the specification has it, fails: the name of a record is
    decoded before its cluster sizes are compared, and a name that is not
    UTF-8 ends the scan.  Here the cluster sizes differ, and the file
    record that follows is never looked at. *)
Lemma fill_directory_aborts_on_name :
  violated (record (sample_undecodable ++ sample_file) 0)
  /\ fill_directory sample_infile false (sample_undecodable ++ sample_file)
       1 true 0 4096
     = ([], inl (Raise UnicodeDecodeError)).
Proof.
  split; [| vm_compute; reflexivity].
  right; left. vm_compute. discriminate.
Qed.

(** C6 (amended): with [makedir], a whole record whose name length byte
    is not zero is skipped, the reason printed and the scan going on with
    the next record, when its effective name length is outside [1, 40];
    otherwise its name is decoded, which ends the scan with
    [UnicodeDecodeError] if the bytes are not UTF-8; once the name is
    decoded the record is skipped in the same way when its two cluster
    sizes differ, when it is a file with first cluster below 1 or when its
    length exceeds 4096 times the cluster size, and a record that violates
    none of these is materialized. *)
Theorem fd_body_skips infile txtfile contents start offset i st :
  let cur := record contents i in
  let body := fd_body infile txtfile contents true start offset in
  length cur = 64%nat ->
  rec_namelen cur <> 0 ->
  (nlen_bad cur ->
     body i st = ([EPrint (msg_namelen (rec_nlen cur))], inl Continue)
     /\ forall l, for_loop (i :: l) body st
                  = prepend [EPrint (msg_namelen (rec_nlen cur))]
                      (for_loop l body st))
  /\ (~ nlen_bad cur -> utf8_decode (rec_rawname cur) = None ->
        forall l, for_loop (i :: l) body st
                  = ([], inl (Raise UnicodeDecodeError)))
  /\ (forall outname,
        ~ nlen_bad cur -> utf8_decode (rec_rawname cur) = Some outname ->
        (violated cur ->
           exists msg,
             body i st
             = (name_lines txtfile cur outname ++ [EPrint msg], inl Continue)
             /\ forall l, for_loop (i :: l) body st
                          = prepend (name_lines txtfile cur outname
                                     ++ [EPrint msg])
                              (for_loop l body st))
        /\ (~ violated cur ->
              body i st
              = prepend (name_lines txtfile cur outname)
                  (materialize infile txtfile start offset i st outname
                     (rec_namelen cur) (rec_startclust cur) (rec_pathind cur)
                     (rec_filelen cur) (rec_dati1 cur) (rec_dati2 cur)))).
Proof.
  intros cur body Hlen Hnz.
  assert (Hbody : body i st = checked infile txtfile start offset i st cur)
    by (apply fd_body_checked; assumption).
  assert (Hnlen : (rec_nlen cur <? 1) || (40 <? rec_nlen cur) = true
                  <-> nlen_bad cur).
  { unfold nlen_bad. rewrite orb_true_iff, !Z.ltb_lt. reflexivity. }
  unfold checked in Hbody.
  split; [| split].
  - intros Hbad. apply Hnlen in Hbad. rewrite Hbad in Hbody.
    split; [exact Hbody |]. intros l. apply for_loop_continue, Hbody.
  - intros Hok Hdec l. apply for_loop_raise.
    destruct ((rec_nlen cur <? 1) || (40 <? rec_nlen cur)) eqn:Hb;
      [exfalso; apply Hok, Hnlen; reflexivity |].
    rewrite Hdec in Hbody. exact Hbody.
  - intros outname Hok Hdec.
    destruct ((rec_nlen cur <? 1) || (40 <? rec_nlen cur)) eqn:Hb;
      [exfalso; apply Hok, Hnlen; reflexivity |].
    rewrite Hdec in Hbody.
    destruct (Z.eqb_spec (rec_clustsize1 cur) (rec_clustsize2 cur)) as [Hcs | Hcs];
      cbn [negb] in Hbody.
    2:{ split; [| intros Hv; exfalso; apply Hv; right; left; exact Hcs].
        intros _. eexists. split; [exact Hbody |].
        intros l. apply for_loop_continue, Hbody. }
    destruct ((rec_startclust cur <? 1) && negb (rec_is_dir cur)) eqn:Hsc.
    { apply andb_true_iff in Hsc. destruct Hsc as [Hsc Hdir].
      apply Z.ltb_lt in Hsc. apply negb_true_iff in Hdir.
      split; [| intros Hv; exfalso; apply Hv; right; right; left; split; assumption].
      intros _. eexists. split; [exact Hbody |].
      intros l. apply for_loop_continue, Hbody. }
    destruct (Z.ltb_spec (4096 * rec_clustsize1 cur) (rec_filelen cur)) as [Hfl | Hfl].
    { split; [| intros Hv; exfalso; apply Hv; right; right; right; exact Hfl].
      intros _. eexists. split; [exact Hbody |].
      intros l. apply for_loop_continue, Hbody. }
    split; [| intros _; exact Hbody].
    intros [Hv | [Hv | [[Hv1 Hv2] | Hv]]]; exfalso.
    + apply Hok, Hv.
    + apply Hv, Hcs.
    + apply andb_false_iff in Hsc. destruct Hsc as [Hsc | Hsc].
      * apply Z.ltb_ge in Hsc. lia.
      * rewrite Hv2 in Hsc. discriminate.
    + lia.
Qed.

Lemma fd_body_skips_witness :
  exists msg,
    fd_body sample_infile true (sample_mismatch ++ sample_file) true 0 4096
      0 fd_init
    = (name_lines true (record (sample_mismatch ++ sample_file) 0) (lit "f")
       ++ [EPrint msg], inl Continue)
    /\ forall l,
         for_loop (0 :: l)
           (fd_body sample_infile true (sample_mismatch ++ sample_file) true
              0 4096) fd_init
         = prepend (name_lines true (record (sample_mismatch ++ sample_file) 0)
                      (lit "f") ++ [EPrint msg])
             (for_loop l
                (fd_body sample_infile true (sample_mismatch ++ sample_file)
                   true 0 4096) fd_init).
Proof.
  apply (fd_body_skips sample_infile true (sample_mismatch ++ sample_file)
           0 4096 0 fd_init).
  - reflexivity.
  - vm_compute. discriminate.
  - unfold nlen_bad. vm_compute. intros [H | H]; discriminate H.
  - vm_compute. reflexivity.
  - right; left. vm_compute. discriminate.
Defined.

(** ** The directory scan: where it stops *)

Lemma for_loop_break_at {A S} (l1 l2 : list A) (j : A) (body : A -> S -> M S) :
  (forall s, body j s = ([], inl Break)) ->
  forall s, for_loop (l1 ++ j :: l2) body s = for_loop l1 body s.
Proof.
  intros Hj. induction l1 as [| x l1 IH]; intros s; cbn [app for_loop].
  - rewrite Hj. reflexivity.
  - destruct (body x s) as [t [[| | e] | s']];
      [rewrite IH | | | rewrite IH]; reflexivity.
Qed.

Lemma for_loop_ext {A S} (l : list A) (body body' : A -> S -> M S) :
  (forall x s, In x l -> body x s = body' x s) ->
  forall s, for_loop l body s = for_loop l body' s.
Proof.
  induction l as [| x l IH]; intros Hext s; cbn [for_loop]; [reflexivity |].
  rewrite <- (Hext x s) by (left; reflexivity).
  assert (Hl : forall y s', In y l -> body y s' = body' y s')
    by (intros y s' Hy; apply Hext; right; exact Hy).
  destruct (body x s) as [t [[| | e] | s']];
    [rewrite (IH Hl) | | | rewrite (IH Hl)]; reflexivity.
Qed.

Lemma In_seqZ (m n i : Z) : In i (seqZ m n) <-> m <= i < m + n.
Proof. rewrite <- list_elem_of_In. apply elem_of_seqZ. Qed.

(** A record is read from its 64 bytes only. *)
Lemma record_take (contents : list Z) (i : Z) (m : nat) :
  0 <= i -> (Z.to_nat ((i + 1) * 64) <= m)%nat ->
  record (take m contents) i = record contents i.
Proof.
  intros Hi Hm. unfold record, slice.
  rewrite !take_drop_commute, take_take. do 2 f_equal. lia.
Qed.

Lemma record_agree (contents contents' : list Z) (i : Z) (m : nat) :
  0 <= i -> (Z.to_nat ((i + 1) * 64) <= m)%nat ->
  take m contents' = take m contents ->
  record contents' i = record contents i.
Proof.
  intros Hi Hm Heq.
  rewrite <- (record_take contents' i m), <- (record_take contents i m), Heq
    by assumption.
  reflexivity.
Qed.

Lemma fd_body_local infile txtfile contents contents' makedir start offset i st :
  record contents' i = record contents i ->
  fd_body infile txtfile contents' makedir start offset i st
  = fd_body infile txtfile contents makedir start offset i st.
Proof.
  intros Heq. unfold fd_body. fold (record contents' i) (record contents i).
  rewrite Heq. reflexivity.
Qed.

(** Byte 40 of record [j] is byte [64 j + 40] of the blob. *)
Lemma index_record_40 (contents : list Z) (j : Z) :
  0 <= j ->
  index (record contents j) 40 = contents !! Z.to_nat (64 * j + 40).
Proof.
  intros Hj. unfold index, record, slice. simpl (40 <? 0).
  rewrite lookup_take_lt by lia. rewrite lookup_drop. f_equal. lia.
Qed.

Lemma fd_body_sentinel infile txtfile contents makedir start offset j st :
  0 <= j ->
  contents !! Z.to_nat (64 * j + 40) = Some 0 ->
  fd_body infile txtfile contents makedir start offset j st = ([], inl Break).
Proof.
  intros Hj Hz. unfold fd_body. fold (record contents j).
  rewrite index_record_40, Hz by exact Hj. reflexivity.
Qed.

Lemma fd_scan_agree infile txtfile contents contents' makedir start offset n :
  take (Z.to_nat (64 * n)) contents' = take (Z.to_nat (64 * n)) contents ->
  fd_scan infile txtfile contents' makedir start offset n
  = fd_scan infile txtfile contents makedir start offset n.
Proof.
  intros Heq. unfold fd_scan. apply for_loop_ext.
  intros i st Hi. apply In_seqZ in Hi. apply fd_body_local.
  apply (record_agree _ _ _ (Z.to_nat (64 * n))); [lia | lia | exact Heq].
Qed.

Lemma fd_scan_sentinel infile txtfile contents makedir start offset n j :
  0 <= j < n ->
  contents !! Z.to_nat (64 * j + 40) = Some 0 ->
  fd_scan infile txtfile contents makedir start offset n
  = fd_scan infile txtfile contents makedir start offset j.
Proof.
  intros Hj Hz. unfold fd_scan.
  replace n with (j + (n - j)) at 1 by lia.
  rewrite seqZ_app by lia. rewrite (seqZ_cons _ (n - j)) by lia.
  rewrite Z.add_0_l.
  apply for_loop_break_at. intros s. apply fd_body_sentinel; [lia | exact Hz].
Qed.

(** C7: the scan looks at no more than [4096 * firstclust / 64] records
    (what [fill_directory] does depends on the first that many records of
    the blob only), and it stops at a record whose byte 40 is zero: it
    does exactly what the scan of the records before that one does, and
    nothing in the blob after that byte has any influence. *)
Theorem fill_directory_stops infile txtfile contents firstclust makedir
    start offset :
  let limit := 0x1000 * firstclust / 64 in
  let fill c := fill_directory infile txtfile c firstclust makedir start offset in
  let scan c n := fd_scan infile txtfile c makedir start offset n in
  (forall contents',
      take (Z.to_nat (64 * limit)) contents'
      = take (Z.to_nat (64 * limit)) contents ->
      fill contents' = fill contents)
  /\ (forall j,
        0 <= j < limit ->
        contents !! Z.to_nat (64 * j + 40) = Some 0 ->
        scan contents limit = scan contents j
        /\ forall contents',
             take (Z.to_nat (64 * j + 41)) contents'
             = take (Z.to_nat (64 * j + 41)) contents ->
             fill contents' = fill contents).
Proof.
  intros limit fill scan. split.
  - intros contents' Heq. subst fill. unfold fill_directory. fold limit.
    rewrite (fd_scan_agree _ _ contents contents') by exact Heq. reflexivity.
  - intros j Hj Hz. split; [apply fd_scan_sentinel; assumption |].
    intros contents' Heq. subst fill. unfold fill_directory. fold limit.
    assert (Hz' : contents' !! Z.to_nat (64 * j + 40) = Some 0).
    { rewrite <- (lookup_take_lt contents' (Z.to_nat (64 * j + 41))) by lia.
      rewrite Heq. rewrite lookup_take_lt by lia. exact Hz. }
    rewrite (fd_scan_sentinel _ _ contents' _ _ _ limit j) by assumption.
    rewrite (fd_scan_sentinel _ _ contents _ _ _ limit j) by assumption.
    rewrite (fd_scan_agree _ _ contents contents'); [reflexivity |].
    apply (f_equal (take (Z.to_nat (64 * j)))) in Heq.
    rewrite !take_take in Heq.
    replace (Z.to_nat (64 * j) `min` Z.to_nat (64 * j + 41))%nat
      with (Z.to_nat (64 * j)) in Heq by lia.
    exact Heq.
Qed.

Lemma fill_directory_stops_witness :
  fd_scan sample_infile false
    (sample_dir ++ replicate 64 0 ++ sample_mismatch) true 0 4096
    (0x1000 * 1 / 64)
  = fd_scan sample_infile false
      (sample_dir ++ replicate 64 0 ++ sample_mismatch) true 0 4096 1.
Proof.
  destruct (fill_directory_stops sample_infile false
              (sample_dir ++ replicate 64 0 ++ sample_mismatch) 1 true 0 4096)
    as [_ Hstop].
  apply (Hstop 1).
  - vm_compute. split; [discriminate | reflexivity].
  - reflexivity.
Defined.

(** ** The directory scan: what its calls carry *)

(** The three ways a call can go on its path. *)
Lemma path_check_cases path :
  (path_check path = ([], inr tt)
   /\ existsb (Z.eqb 0) path = false /\ path <> [])
  \/ (path_check path = ([], inl (Raise ValueError)) /\ In 0 path)
  \/ (path_check path = ([], inl (Raise FileNotFoundError)) /\ path = []).
Proof.
  unfold path_check. destruct (existsb (Z.eqb 0) path) eqn:Hn.
  - right; left. split; [reflexivity |].
    apply existsb_exists in Hn. destruct Hn as (x & Hx & Heq).
    apply Z.eqb_eq in Heq. subst x. exact Hx.
  - destruct path as [| c path].
    + right; right. split; reflexivity.
    + left. repeat split. discriminate.
Qed.

Lemma no_nul_not_in path : ~ In 0 path -> existsb (Z.eqb 0) path = false.
Proof.
  intros Hn. destruct (existsb (Z.eqb 0) path) eqn:He; [| reflexivity].
  exfalso. apply Hn. apply existsb_exists in He. destruct He as (x & Hx & Heq).
  apply Z.eqb_eq in Heq. subst x. exact Hx.
Qed.

Lemma path_check_ok path :
  path <> [] -> ~ In 0 path -> path_check path = mret tt.
Proof.
  intros Hne Hn.
  destruct (path_check_cases path) as [[H _] | [[_ H] | [_ H]]];
    [exact H | contradiction | contradiction].
Qed.

Lemma do_mkdir_cases dirname :
  (do_mkdir dirname = ([EMkdir dirname], inr tt)
   /\ existsb (Z.eqb 0) dirname = false /\ dirname <> [])
  \/ (do_mkdir dirname = ([], inl (Raise ValueError)) /\ In 0 dirname)
  \/ (do_mkdir dirname = ([], inr tt) /\ dirname = []).
Proof.
  unfold do_mkdir, os_mkdir.
  destruct (path_check_cases dirname) as [[-> H] | [[-> H] | [-> H]]].
  - left. split; [reflexivity | exact H].
  - right; left. split; [reflexivity | exact H].
  - right; right. split; [reflexivity | exact H].
Qed.

Section events_all.

Variable P : event -> Prop.

Lemma all_ret {A} (a : A) : events_all P (mret a : M A).
Proof. constructor. Qed.

Lemma all_leave {A} (c : ctl) : events_all P (leave c : M A).
Proof. constructor. Qed.

Lemma all_emit (e : event) : P e -> events_all P (emit e).
Proof. intros He. repeat constructor. exact He. Qed.

Lemma all_prepend {A} (t : list event) (m : M A) :
  Forall P t -> events_all P m -> events_all P (prepend t m).
Proof. intros Ht Hm. apply Forall_app. split; assumption. Qed.

Lemma all_bind {A B} (m : M A) (f : A -> M B) :
  events_all P m ->
  (forall a, snd m = inr a -> events_all P (f a)) ->
  events_all P (m ≫= f).
Proof.
  destruct m as [t [c | a]]; intros Hm Hf; [exact Hm |].
  apply all_prepend; [exact Hm | apply Hf; reflexivity].
Qed.

Lemma all_orelse {A} (o : option A) (e : exn) : events_all P (orelse o e).
Proof. destruct o; constructor. Qed.

Lemma orelse_inr {A} (o : option A) (e : exn) (a : A) :
  snd (orelse o e) = inr a -> o = Some a.
Proof. destruct o; simpl; [intros [= ->]; reflexivity | discriminate]. Qed.

Lemma all_when (cond : bool) (body : M unit) :
  events_all P body -> events_all P (when cond body).
Proof. destruct cond; [trivial | intros _; constructor]. Qed.

Lemma all_for_each {A} (l : list A) (body : A -> M unit) :
  (forall x, events_all P (body x)) -> events_all P (for_each l body).
Proof.
  intros Hb. induction l as [| x l IH]; [constructor |].
  cbn [for_each]. apply all_bind; [apply Hb | intros _ _; exact IH].
Qed.

Lemma all_for_loop {A S} (l : list A) (body : A -> S -> M S) :
  (forall x s, In x l -> events_all P (body x s)) ->
  forall s, events_all P (for_loop l body s).
Proof.
  induction l as [| x l IH]; intros Hb s; [constructor |].
  cbn [for_loop].
  pose proof (Hb x s (or_introl eq_refl)) as Hx.
  assert (Hl : forall y s', In y l -> events_all P (body y s'))
    by (intros y s' Hy; apply Hb; right; exact Hy).
  destruct (body x s) as [t [[| | e] | s']]; try exact Hx;
    apply all_prepend; auto.
Qed.

Lemma all_path_check path : events_all P (path_check path).
Proof.
  destruct (path_check_cases path) as [[-> _] | [[-> _] | [-> _]]]; constructor.
Qed.

Lemma all_os_chdir path : P (EChdir path) -> events_all P (os_chdir path).
Proof.
  intros HP. apply all_bind; [apply all_path_check |].
  intros _ _. apply all_emit, HP.
Qed.

Lemma all_open_write name buf :
  P (EOpenWrite name buf) -> events_all P (open_write name buf).
Proof.
  intros HP. apply all_bind; [apply all_path_check |].
  intros _ _. apply all_emit, HP.
Qed.

Lemma all_do_utime name atime mtime :
  P (EUtime name atime mtime) -> events_all P (do_utime name atime mtime).
Proof.
  intros HP. apply all_bind; [apply all_path_check |].
  intros _ _. apply all_emit, HP.
Qed.

Lemma all_do_mkdir name : P (EMkdir name) -> events_all P (do_mkdir name).
Proof.
  intros HP.
  destruct (do_mkdir_cases name) as [[-> _] | [[-> _] | [-> _]]];
    repeat constructor. exact HP.
Qed.

Hypothesis P_seek : forall pos, P (ESeek pos).
Hypothesis P_read : forall n, P (ERead n).

Lemma all_read_blocks infile offset buf startclust adstart filelen :
  events_all P (read_blocks infile offset buf startclust adstart filelen).
Proof.
  remember (Z.to_nat filelen) as m eqn:Hm.
  revert buf startclust adstart filelen Hm.
  induction m as [m IH] using lt_wf_ind. intros buf startclust adstart filelen ->.
  rewrite read_blocks_step. destruct (Z.ltb_spec 0 filelen); [| apply all_ret].
  cbv zeta. apply all_bind.
  - unfold infile_seek. destruct (_ <? 0); [apply all_leave | apply all_emit, P_seek].
  - intros _ _. apply all_bind.
    + unfold infile_read. apply all_bind; [apply all_emit, P_read |].
      intros _ _. apply all_ret.
    + intros chunk _. apply (IH (Z.to_nat (filelen - 4096))); [lia | reflexivity].
Qed.

End events_all.

Lemma all_chdir_up P path :
  (forall p, P (EChdir p)) -> events_all P (chdir_up path).
Proof.
  intros HP. apply all_for_each. intros _. apply all_os_chdir, HP.
Qed.

Lemma all_dict_get P d k : events_all P (dict_get d k).
Proof. apply all_orelse. Qed.



Lemma bind_events_prefix {A B} (m : M A) (f : A -> M B) :
  exists rest, fst (m ≫= f) = fst m ++ rest.
Proof.
  destruct m as [t [c | a]].
  - exists []. rewrite bind_leave, app_nil_r. reflexivity.
  - exists (fst (f a)). reflexivity.
Qed.

Lemma snd_bind {A B} (m : M A) (f : A -> M B) :
  snd (m ≫= f) = match snd m with inl c => inl c | inr a => snd (f a) end.
Proof. destruct m as [t [c | a]]; reflexivity. Qed.

Lemma fst_bind {A B} (m : M A) (f : A -> M B) :
  fst (m ≫= f)
  = fst m ++ match snd m with inl c => [] | inr a => fst (f a) end.
Proof.
  destruct m as [t [c | a]]; simpl; [rewrite app_nil_r |]; reflexivity.
Qed.

Lemma for_each_const {A} (l : list A) (e : event) :
  for_each l (fun _ => emit e) = (replicate (length l) e, inr tt).
Proof.
  induction l as [| x l IH]; [reflexivity |].
  cbn [for_each]. rewrite IH. reflexivity.
Qed.

Lemma chdir_up_events path :
  chdir_up path
  = (replicate (Z.to_nat (count 47 path)) (EChdir (lit "..")), inr tt).
Proof.
  unfold chdir_up.
  change (os_chdir (lit "..")) with (emit (EChdir (lit ".."))).
  rewrite for_each_const, length_seqZ. reflexivity.
Qed.






(** * Further properties of the code *)

(** ** The correction as a function of the cluster *)

Lemma gc_while_acc s st :
  forall acc,
    gc_rst (gc_while s (GcState (gc_startclust st) acc))
    = acc + get_cluster (gc_startclust st) s.
Proof.
  induction st as [st IH] using (gc_loop_ind s). intros acc.
  unfold get_cluster.
  rewrite (gc_while_State s (gc_startclust st) acc),
          (gc_while_State s (gc_startclust st) 0).
  destruct (Z.leb_spec 170 (gc_startclust st)) as [Hge | Hlt]; [| simpl; lia].
  assert (Hg : gc_guard st = true) by (unfold gc_guard; apply Z.leb_le; exact Hge).
  specialize (IH Hg). unfold gc_body in IH. simpl in IH.
  rewrite (IH (acc + _)), (IH (0 + _)). lia.
Qed.

(** The loop of [get_cluster] read as a recursion on the cluster. *)
Lemma get_cluster_rec c s :
  get_cluster c s
  = if 170 <=? c then (c / 170 + 1) * s + get_cluster (c / 170) s else 0.
Proof.
  unfold get_cluster at 1. rewrite gc_while_State.
  destruct (Z.leb_spec 170 c); [| reflexivity].
  rewrite (gc_while_acc s (GcState (c / 170) 0)). simpl. lia.
Qed.

(** X1: The correction for the clusters an archive can have.  For a
    cluster number [c] that fits the 24-bit field of a record it is the
    block step times the sum of [c / 170 + 1] when [c >= 170],
    [c / 28900 + 1] when [c >= 28900] and [c / 4913000 + 1] when
    [c >= 4913000]. *)
Theorem get_cluster_closed_form (c s : Z) :
  0 <= c < 2 ^ 24 ->
  get_cluster c s
  = s * ((if 170 <=? c then c / 170 + 1 else 0)
         + (if 28900 <=? c then c / 28900 + 1 else 0)
         + (if 4913000 <=? c then c / 4913000 + 1 else 0)).
Proof.
  intros Hc.
  assert (H2 : c / 170 / 170 = c / 28900)
    by (rewrite Z.div_div by lia; reflexivity).
  assert (H3 : c / 28900 / 170 = c / 4913000)
    by (rewrite Z.div_div by lia; reflexivity).
  assert (Hd1 : 170 <= c / 170 <-> 28900 <= c).
  { split; intros H.
    - pose proof (Z.mul_div_le c 170 ltac:(lia)). lia.
    - apply Z.div_le_lower_bound; lia. }
  assert (Hd2 : 170 <= c / 28900 <-> 4913000 <= c).
  { split; intros H.
    - pose proof (Z.mul_div_le c 28900 ltac:(lia)). lia.
    - apply Z.div_le_lower_bound; lia. }
  assert (Hd3 : c / 4913000 < 170).
  { apply Z.div_lt_upper_bound; [lia |]. change (2 ^ 24) with 16777216 in Hc. lia. }
  rewrite (get_cluster_rec c).
  destruct (Z.leb_spec 170 c) as [H170 | H170].
  2:{ destruct (Z.leb_spec 28900 c); [lia |].
      destruct (Z.leb_spec 4913000 c); lia. }
  rewrite (get_cluster_rec (c / 170)), H2.
  destruct (Z.leb_spec 170 (c / 170)) as [Ha | Ha];
    destruct (Z.leb_spec 28900 c) as [Hb | Hb]; try (exfalso; lia).
  2:{ destruct (Z.leb_spec 4913000 c); lia. }
  rewrite (get_cluster_rec (c / 28900)), H3.
  destruct (Z.leb_spec 170 (c / 28900)) as [Hc1 | Hc1];
    destruct (Z.leb_spec 4913000 c) as [Hc2 | Hc2]; try (exfalso; lia).
  2:{ lia. }
  rewrite (get_cluster_rec (c / 4913000)).
  destruct (Z.leb_spec 170 (c / 4913000)); lia.
Qed.

Lemma get_cluster_closed_form_witness :
  get_cluster 28900 4096 = 4096 * ((28900 / 170 + 1) + (28900 / 28900 + 1) + 0).
Proof.
  apply (get_cluster_closed_form 28900 4096). lia.
Defined.

(** The correction along the clusters. *)
Lemma get_cluster_le (c c' s : Z) :
  0 <= s -> c <= c' -> 0 <= get_cluster c s <= get_cluster c' s.
Proof.
  intros Hs. split; [apply get_cluster_nonneg; exact Hs |].
  revert c H.
  remember (Z.to_nat c') as m eqn:Hm. revert c' Hm.
  induction m as [m IH] using lt_wf_ind. intros c' -> c Hle.
  rewrite (get_cluster_rec c), (get_cluster_rec c').
  destruct (Z.leb_spec 170 c) as [Hc | Hc];
    destruct (Z.leb_spec 170 c') as [Hc' | Hc']; try lia.
  - assert (Hdiv : c / 170 <= c' / 170) by (apply Z.div_le_mono; lia).
    assert (Hlt : c' / 170 < c') by (apply Z.div_lt; lia).
    assert (Hpos : 0 <= c' / 170) by (apply Z.div_pos; lia).
    pose proof (IH (Z.to_nat (c' / 170)) ltac:(lia) (c' / 170) eq_refl
                   (c / 170) Hdiv).
    nia.
  - pose proof (get_cluster_nonneg (c' / 170) s Hs).
    assert (0 <= c' / 170) by (apply Z.div_pos; lia). nia.
Qed.

(** X2: With a nonnegative block step the correction never decreases along
    the clusters. *)
Theorem get_cluster_monotone (c c' s : Z) :
  0 <= s -> c <= c' -> 0 <= get_cluster c s <= get_cluster c' s.
Proof. exact (get_cluster_le c c' s). Qed.

Lemma get_cluster_monotone_witness :
  0 <= get_cluster 169 4096 <= get_cluster 170 4096.
Proof.
  apply (get_cluster_monotone 169 170 4096); lia.
Defined.

(** ** The chunks of a file *)

(** Where a chunk ends and a later one starts. *)
Lemma chunk_pos_le (adstart startclust filelen offset j k : Z) :
  0 <= offset -> j < k ->
  chunk_pos adstart startclust offset j + chunk_size filelen j
  <= chunk_pos adstart startclust offset k.
Proof.
  intros Hoff Hjk. unfold chunk_pos, chunk_size.
  pose proof (get_cluster_le (startclust + j) (startclust + k) offset
                Hoff ltac:(lia)).
  lia.
Qed.

(** X3: With a nonnegative block step the chunks of a file lie one after the
    other in the archive: a chunk ends where a later one starts, or
    before. *)
Theorem chunks_in_order (adstart startclust filelen offset j k : Z) :
  0 <= offset -> j < k ->
  chunk_pos adstart startclust offset j + chunk_size filelen j
  <= chunk_pos adstart startclust offset k.
Proof. exact (chunk_pos_le adstart startclust filelen offset j k). Qed.

Lemma chunks_in_order_witness :
  chunk_pos 0xD000 169 4096 0 + chunk_size 10000 0 <= chunk_pos 0xD000 169 4096 1.
Proof.
  apply (chunks_in_order 0xD000 169 10000 4096 0 1); lia.
Defined.

Lemma chunk_data_length infile offset :
  0 <= offset ->
  forall (m : nat) adstart startclust filelen,
    (filelen + 4095) / 4096 = Z.of_nat m ->
    0 <= filelen -> 0 <= adstart ->
    (forall j, 0 <= j < Z.of_nat m ->
       chunk_pos adstart startclust offset j + chunk_size filelen j
       <= len infile) ->
    len (chunk_data infile adstart startclust filelen offset (Z.of_nat m))
    = filelen.
Proof.
  intros Hoff. induction m as [| m IH];
    intros adstart startclust filelen Hn HL Had Hin.
  - assert (filelen = 0).
    { destruct (Z.eq_dec filelen 0) as [| Hne]; [assumption |].
      assert (1 <= (filelen + 4095) / 4096)
        by (apply Z.div_le_lower_bound; lia). lia. }
    subst filelen. reflexivity.
  - assert (Hpos : 0 < filelen).
    { destruct (Z.eq_dec filelen 0) as [-> | Hne]; [| lia].
      change ((0 + 4095) / 4096) with 0 in Hn. lia. }
    rewrite chunk_data_cons by lia.
    unfold len. rewrite length_app, length_take, length_drop.
    pose proof (get_cluster_nonneg startclust offset Hoff) as Hgc.
    pose proof (Hin 0 ltac:(lia)) as H0.
    unfold chunk_pos, chunk_size, len in H0.
    rewrite Z.mul_0_r, !Z.add_0_r, Z.sub_0_r in H0.
    replace (Z.of_nat (S m) - 1) with (Z.of_nat m) by lia.
    destruct (Z.le_gt_cases filelen 4096) as [Hle | Hgt].
    + assert (Hm : m = 0%nat).
      { assert ((filelen + 4095) / 4096 < 2)
          by (apply Z.div_lt_upper_bound; lia). lia. }
      subst m. unfold chunk_data. simpl. lia.
    + assert (Hn' : (filelen - 4096 + 4095) / 4096 = Z.of_nat m).
      { replace (filelen + 4095) with (filelen - 4096 + 4095 + 1 * 4096) in Hn
          by lia.
        rewrite Z.div_add in Hn by lia. lia. }
      specialize (IH (adstart + 4096) (startclust + 1) (filelen - 4096) Hn'
                     ltac:(lia) ltac:(lia)).
      unfold len in IH. rewrite Nat2Z.inj_add, IH; [lia |].
      intros j Hj.
      destruct (chunk_shift adstart startclust filelen offset j) as [-> ->].
      apply Hin. lia.
Qed.

(** X4: A file whose last chunk lies inside the archive is extracted with
    exactly the length its record gives: no chunk is read short. *)
Theorem read_blocks_length infile offset startclust adstart filelen :
  0 < filelen -> 0 <= adstart -> 0 <= offset ->
  let n := (filelen + 4095) / 4096 in
  chunk_pos adstart startclust offset (n - 1) + chunk_size filelen (n - 1)
  <= len infile ->
  exists data,
    snd (read_blocks infile offset [] startclust adstart filelen) = inr data
    /\ len data = filelen.
Proof.
  intros HL Had Hoff n Hlast.
  assert (Hn : 0 < n) by (subst n; apply Z.div_str_pos; lia).
  exists (chunk_data infile adstart startclust filelen offset n). split.
  - rewrite (read_blocks_trace infile offset Hoff (Z.to_nat n)); [reflexivity | exact Had |].
    fold n. lia.
  - rewrite <- (Z2Nat.id n) by lia.
    apply (chunk_data_length infile offset Hoff); [fold n; lia | lia | exact Had |].
    rewrite Z2Nat.id by lia. intros j Hj.
    destruct (Z.eq_dec j (n - 1)) as [-> | Hne]; [exact Hlast |].
    pose proof (chunk_pos_le adstart startclust filelen offset j (n - 1)
                  Hoff ltac:(lia)).
    assert (4096 * (n - 1) < filelen).
    { subst n. pose proof (Z.div_mod (filelen + 4095) 4096 ltac:(lia)).
      pose proof (Z.mod_pos_bound (filelen + 4095) 4096 ltac:(lia)). lia. }
    unfold chunk_size in *. lia.
Qed.

Lemma read_blocks_length_witness :
  exists data,
    snd (read_blocks sample_infile 4096 [] 1 4096 3) = inr data
    /\ len data = 3.
Proof.
  apply (read_blocks_length sample_infile 4096 1 4096 3); [lia | lia | lia |].
  vm_compute. discriminate.
Defined.

(** ** The directory scan: outcomes *)

Lemma record_length_le contents i : (length (record contents i) <= 64)%nat.
Proof.
  unfold record, slice. rewrite length_take.
  replace (Z.to_nat ((i + 1) * 64 - i * 64)) with 64%nat by lia. lia.
Qed.

Lemma record_whole contents i :
  0 <= i -> 64 * (i + 1) <= len contents ->
  length (record contents i) = 64%nat.
Proof.
  unfold record, slice, len. rewrite length_take, length_drop. lia.
Qed.

Lemma record_cut contents i :
  0 <= i -> 64 * i <= len contents < 64 * (i + 1) ->
  Z.of_nat (length (record contents i)) = len contents - 64 * i.
Proof.
  unfold record, slice, len. rewrite length_take, length_drop. lia.
Qed.

(** The ways an iteration of the scan can go: it breaks at the sentinel,
    passes over the record when [makedir] is off, fails on a record cut
    short by the end of the blob, or checks a whole record. *)
Lemma fd_body_cases infile txtfile contents makedir start offset i st :
  let cur := record contents i in
  let r := fd_body infile txtfile contents makedir start offset i st in
  (length cur = 64%nat /\ rec_namelen cur = 0 /\ r = ([], inl Break))
  \/ (length cur = 64%nat /\ rec_namelen cur <> 0 /\ makedir = false
      /\ r = ([], inl Continue))
  \/ (length cur = 64%nat /\ rec_namelen cur <> 0 /\ makedir = true
      /\ r = checked infile txtfile start offset i st cur)
  \/ ((length cur < 64)%nat
      /\ (r = ([], inl Break) \/ r = ([], inl (Raise IndexError))
          \/ r = ([], inl (Raise StructError)))).
Proof.
  intros cur r.
  destruct (Nat.eq_dec (length cur) 64%nat) as [Hlen | Hlen].
  - assert (Hidx : index cur 40 = Some (rec_namelen cur))
      by (apply (index_byte_at cur 40); lia).
    destruct (Z.eq_dec (rec_namelen cur) 0) as [Hz | Hnz].
    + left. repeat split; try assumption.
      subst r. unfold fd_body. fold (record contents i). fold cur.
      rewrite Hidx, Hz. reflexivity.
    + destruct makedir.
      * right; right; left. repeat split; try assumption.
        apply fd_body_checked; assumption.
      * right; left. repeat split; try assumption.
        subst r. unfold fd_body. fold (record contents i). fold cur.
        rewrite Hidx. cbn [orelse]. rewrite bind_ret.
        destruct (Z.eqb_spec (rec_namelen cur) 0); [contradiction |].
        rewrite unpack_head_record, unpack_tail_record by exact Hlen.
        reflexivity.
  - right; right; right.
    pose proof (record_length_le contents i) as Hle. fold cur in Hle.
    split; [lia |].
    subst r. unfold fd_body. fold (record contents i). fold cur.
    destruct (index cur 40) as [b |] eqn:Hidx; [| right; left; reflexivity].
    cbn [orelse]. rewrite bind_ret.
    destruct (b =? 0); [left; reflexivity |].
    right; right.
    destruct (unpack_40sBHBHBHB (slice cur 0 50)) as [hd |] eqn:Hhd;
      [| reflexivity].
    assert (Htl : unpack_HLLL (slice cur 50 64) = None).
    { unfold unpack_HLLL.
      destruct (Nat.eqb_spec (length (slice cur 50 64)) 14%nat) as [H14 | ];
        [| reflexivity].
      unfold slice in H14. rewrite length_take, length_drop in H14. lia. }
    cbn [orelse]. rewrite bind_ret.
    destruct hd as [[[[[[[a1 a2] a3] a4] a5] a6] a7] a8].
    rewrite Htl. reflexivity.
Qed.

(** A record cut short by the end of the blob: [cur[40]] fails when the
    record has no byte 40, and one of the two [struct.unpack] calls when
    it has one that is not zero. *)
Lemma fd_body_cut infile txtfile contents makedir start offset i st :
  let cur := record contents i in
  let r := fd_body infile txtfile contents makedir start offset i st in
  (length cur < 64)%nat ->
  ((length cur <= 40)%nat -> r = ([], inl (Raise IndexError)))
  /\ ((40 < length cur)%nat -> index cur 40 <> Some 0 ->
      r = ([], inl (Raise StructError))).
Proof.
  intros cur r Hshort. subst r. unfold fd_body. fold (record contents i).
  fold cur. split.
  - intros Hle.
    assert (Hidx : index cur 40 = None).
    { unfold index. simpl (40 <? 0). apply lookup_ge_None_2. lia. }
    rewrite Hidx. reflexivity.
  - intros Hgt Hnz.
    destruct (index cur 40) as [b |] eqn:Hidx.
    2:{ unfold index in Hidx. simpl (40 <? 0) in Hidx.
        apply lookup_ge_None_1 in Hidx. lia. }
    cbn [orelse]. rewrite bind_ret.
    destruct (Z.eqb_spec b 0) as [-> | _]; [exfalso; apply Hnz; reflexivity |].
    destruct (unpack_40sBHBHBHB (slice cur 0 50)) as [hd |] eqn:Hhd;
      [| reflexivity].
    assert (Htl : unpack_HLLL (slice cur 50 64) = None).
    { unfold unpack_HLLL.
      destruct (Nat.eqb_spec (length (slice cur 50 64)) 14%nat) as [H14 | ];
        [| reflexivity].
      unfold slice in H14. rewrite length_take, length_drop in H14. lia. }
    cbn [orelse]. rewrite bind_ret.
    destruct hd as [[[[[[[a1 a2] a3] a4] a5] a6] a7] a8].
    rewrite Htl. reflexivity.
Qed.

(** Without [makedir], a whole record is the sentinel or is passed over. *)
Lemma fd_body_off_whole infile txtfile contents start offset i st :
  0 <= i -> 64 * (i + 1) <= len contents ->
  let r := fd_body infile txtfile contents false start offset i st in
  (r = ([], inl Break) \/ r = ([], inl Continue))
  /\ (contents !! Z.to_nat (64 * i + 40) <> Some 0 -> r = ([], inl Continue)).
Proof.
  intros Hi Hwhole r. subst r.
  pose proof (record_whole contents i Hi Hwhole) as Hlen.
  destruct (fd_body_cases infile txtfile contents false start offset i st)
    as [(_ & Hz & ->) | [(_ & _ & _ & ->) | [(_ & _ & Hmk & _) | (Hshort & _)]]].
  - split; [left; reflexivity |]. intros Hnz. exfalso. apply Hnz.
    rewrite <- index_record_40 by exact Hi.
    assert (Hidx : index (record contents i) 40
                   = Some (rec_namelen (record contents i)))
      by (apply (index_byte_at (record contents i) 40); lia).
    rewrite Hidx, Hz. reflexivity.
  - split; [right; reflexivity | reflexivity].
  - discriminate.
  - lia.
Qed.

(** A loop whose iterations issue nothing and never get to their end
    issues nothing, keeps its variables, and can only fail as an iteration
    fails. *)
Lemma for_loop_silent {A S} (l : list A) (body : A -> S -> M S)
    (Q : exn -> Prop) (s : S) :
  (forall x, In x l ->
     body x s = ([], inl Break) \/ body x s = ([], inl Continue)
     \/ exists e, Q e /\ body x s = ([], inl (Raise e))) ->
  for_loop l body s = ([], inr s)
  \/ exists e, Q e /\ for_loop l body s = ([], inl (Raise e)).
Proof.
  induction l as [| x l IH]; intros Hb; [left; reflexivity |].
  cbn [for_loop].
  destruct (Hb x (or_introl eq_refl)) as [-> | [-> | (e & He & ->)]].
  - left. reflexivity.
  - destruct IH as [-> | (e & He & ->)];
      [intros y Hy; apply Hb; right; exact Hy | left; reflexivity |].
    right. exists e. split; [exact He | reflexivity].
  - right. exists e. split; [exact He | reflexivity].
Qed.

(** Iterations that issue nothing and leave through [continue] can be
    dropped from the front of a loop. *)
Lemma for_loop_skip {A S} (l1 l2 : list A) (body : A -> S -> M S) (s : S) :
  (forall x, In x l1 -> body x s = ([], inl Continue)) ->
  for_loop (l1 ++ l2) body s = for_loop l2 body s.
Proof.
  induction l1 as [| x l1 IH]; intros Hb; [reflexivity |].
  cbn [app for_loop]. rewrite (Hb x (or_introl eq_refl)).
  rewrite IH by (intros y Hy; apply Hb; right; exact Hy).
  destruct (for_loop l2 body s) as [t r]. reflexivity.
Qed.

(** Without [makedir], the scan of whole records ends normally and has
    issued nothing. *)
Lemma fd_scan_off_whole infile txtfile contents start offset n :
  64 * n <= len contents ->
  fd_scan infile txtfile contents false start offset n = ([], inr fd_init).
Proof.
  intros Hn. unfold fd_scan.
  destruct (for_loop_silent (seqZ 0 n)
              (fd_body infile txtfile contents false start offset)
              (fun _ => False) fd_init) as [H | (e & [] & _)]; [| exact H].
  intros i Hi. apply In_seqZ in Hi.
  destruct (fd_body_off_whole infile txtfile contents start offset i fd_init)
    as [[H | H] _]; [lia | lia | left; exact H | right; left; exact H].
Qed.

(** Without [makedir], a blob that ends before the records to scan and
    before any sentinel makes the scan fail at the record that is cut. *)
Lemma fd_scan_off_cut infile txtfile contents start offset n :
  len contents < 64 * n ->
  (forall j, 0 <= j < n -> contents !! Z.to_nat (64 * j + 40) <> Some 0) ->
  let r := fd_scan infile txtfile contents false start offset n in
  (len contents mod 64 <= 40 -> r = ([], inl (Raise IndexError)))
  /\ (40 < len contents mod 64 -> r = ([], inl (Raise StructError))).
Proof.
  intros Hshort Hnz r. subst r. unfold fd_scan.
  set (c := len contents / 64).
  assert (Hlen : 0 <= len contents) by (unfold len; lia).
  assert (Hc : 0 <= c < n).
  { subst c. split; [apply Z.div_pos; lia |].
    apply Z.div_lt_upper_bound; lia. }
  assert (Hmod : len contents mod 64 = len contents - 64 * c)
    by (subst c; rewrite Z.mod_eq by lia; reflexivity).
  assert (Hrange : 0 <= len contents mod 64 < 64) by (apply Z.mod_pos_bound; lia).
  replace n with (c + (n - c)) by lia.
  rewrite seqZ_app by lia. rewrite (seqZ_cons _ (n - c)) by lia.
  rewrite Z.add_0_l.
  rewrite for_loop_skip.
  2:{ intros i Hi. apply In_seqZ in Hi.
      apply (fd_body_off_whole infile txtfile contents start offset i fd_init);
        [lia | lia | apply Hnz; lia]. }
  pose proof (record_cut contents c ltac:(lia) ltac:(lia)) as Hcut.
  destruct (fd_body_cut infile txtfile contents false start offset c fd_init)
    as [Hidx Hstruct]; [lia |].
  split; intros Hm; apply for_loop_raise.
  - apply Hidx. lia.
  - apply Hstruct; [lia |].
    rewrite index_record_40 by lia. apply Hnz. lia.
Qed.

(** X5: Without [makedir] the scan has no effect at all: it issues no call
    and writes nothing.  It ends normally when the blob holds all the
    records to scan, and also when it holds the name length byte of a
    sentinel among them; on a blob that ends before both, it fails at
    the record that is cut: with [IndexError] when that record has no
    byte 40, with [struct.error] when it has. *)
Theorem fill_directory_without_makedir infile txtfile contents firstclust
    start offset :
  let limit := 0x1000 * firstclust / 64 in
  let r := fill_directory infile txtfile contents firstclust false start offset in
  fst r = []
  /\ (64 * limit <= len contents -> snd r = inr tt)
  /\ (forall j, 0 <= j < limit ->
                contents !! Z.to_nat (64 * j + 40) = Some 0 -> snd r = inr tt)
  /\ (len contents < 64 * limit ->
      (forall j, 0 <= j < limit ->
                 contents !! Z.to_nat (64 * j + 40) <> Some 0) ->
      (len contents mod 64 <= 40 -> snd r = inl (Raise IndexError))
      /\ (40 < len contents mod 64 -> snd r = inl (Raise StructError))).
Proof.
  intros limit r. subst r. unfold fill_directory. fold limit.
  split; [| split; [| split]].
  - unfold fd_scan.
    destruct (for_loop_silent (seqZ 0 limit)
                (fd_body infile txtfile contents false start offset)
                (fun _ => True) fd_init) as [-> | (e & _ & ->)];
      [| reflexivity | reflexivity].
    intros i _.
    destruct (fd_body_cases infile txtfile contents false start offset i fd_init)
      as [(_ & _ & ->) | [(_ & _ & _ & ->) | [(_ & _ & Hmk & _)
          | (_ & [-> | [-> | ->]])]]]; auto; try discriminate.
    + right; right. exists IndexError. auto.
    + right; right. exists StructError. auto.
  - intros Hwhole. rewrite fd_scan_off_whole by exact Hwhole. reflexivity.
  - intros j Hj Hz.
    rewrite (fd_scan_sentinel _ _ _ _ _ _ limit j Hj Hz).
    rewrite fd_scan_off_whole; [reflexivity |].
    apply lookup_lt_Some in Hz. unfold len. lia.
  - intros Hshort Hnz.
    destruct (fd_scan_off_cut infile txtfile contents start offset limit
                Hshort Hnz) as [Hidx Hstruct].
    split; intros Hm; [rewrite (Hidx Hm) | rewrite (Hstruct Hm)]; reflexivity.
Qed.

Lemma fill_directory_without_makedir_witness :
  snd (fill_directory sample_infile false (sample_mismatch ++ [1; 2; 3]) 1
         false 0 4096)
  = inl (Raise IndexError)
  /\ snd (fill_directory sample_infile false
            (sample_mismatch ++ replicate 41 1) 1 false 0 4096)
     = inl (Raise StructError)
  /\ snd (fill_directory sample_infile false
            (sample_mismatch ++ replicate 41 0) 1 false 0 4096)
     = inr tt.
Proof.
  split; [| split].
  - destruct (fill_directory_without_makedir sample_infile false
                (sample_mismatch ++ [1; 2; 3]) 1 0 4096) as (_ & _ & _ & Hcut).
    apply Hcut.
    + vm_compute. reflexivity.
    + intros j Hj. change (4096 * 1 / 64) with 64 in Hj.
      destruct (Z.eq_dec j 0) as [-> | Hne]; [vm_compute; discriminate |].
      rewrite lookup_ge_None_2; [discriminate |].
      change (length (sample_mismatch ++ [1; 2; 3])) with 67%nat. lia.
    + vm_compute. discriminate.
  - destruct (fill_directory_without_makedir sample_infile false
                (sample_mismatch ++ replicate 41 1) 1 0 4096)
      as (_ & _ & _ & Hcut).
    apply Hcut.
    + vm_compute. reflexivity.
    + intros j Hj. change (4096 * 1 / 64) with 64 in Hj.
      destruct (Z.eq_dec j 0) as [-> | Hne]; [vm_compute; discriminate |].
      destruct (Z.eq_dec j 1) as [-> | Hne1]; [vm_compute; discriminate |].
      rewrite lookup_ge_None_2; [discriminate |].
      change (length (sample_mismatch ++ replicate 41 1)) with 105%nat. lia.
    + vm_compute. reflexivity.
  - destruct (fill_directory_without_makedir sample_infile false
                (sample_mismatch ++ replicate 41 0) 1 0 4096)
      as (_ & _ & Hstop & _).
    apply (Hstop 1).
    + vm_compute. split; [discriminate | reflexivity].
    + reflexivity.
Defined.

Lemma read_blocks_outcome infile offset buf startclust adstart filelen :
  (exists data,
      snd (read_blocks infile offset buf startclust adstart filelen) = inr data)
  \/ snd (read_blocks infile offset buf startclust adstart filelen)
     = inl (Raise SeekError).
Proof.
  remember (Z.to_nat filelen) as m eqn:Hm.
  revert buf startclust adstart filelen Hm.
  induction m as [m IH] using lt_wf_ind. intros buf startclust adstart filelen ->.
  rewrite read_blocks_step.
  destruct (Z.ltb_spec 0 filelen); [| left; eexists; reflexivity].
  cbv zeta. rewrite snd_bind. unfold infile_seek.
  destruct (_ <? 0); [right; reflexivity |]. cbn [snd emit].
  rewrite snd_bind. unfold infile_read at 1. rewrite snd_bind. cbn [snd emit mret M_ret ret].
  apply (IH (Z.to_nat (filelen - 4096))); [lia | reflexivity].
Qed.


(** A call on a path without NUL that is not empty goes to the host. *)
Lemma path_check_clean path :
  existsb (Z.eqb 0) path = false -> path <> [] -> path_check path = mret tt.
Proof.
  intros Hnul Hne. unfold path_check. rewrite Hnul.
  destruct path; [contradiction | reflexivity].
Qed.

Lemma path_check_nul path :
  existsb (Z.eqb 0) path = true ->
  path_check path = leave (Raise ValueError).
Proof. intros Hnul. unfold path_check. rewrite Hnul. reflexivity. Qed.

(** How the materialization of a record with a name can end from
    variables as they are between two records: normally, with variables
    of that kind again; with [KeyError] for the record's path index; with
    a refused seek; with [ValueError] for a NUL in the name; or with
    [FileNotFoundError] when the record's path index is the root's. *)
Lemma materialize_outcome infile txtfile start offset i st outname namelen
    startclust pathind filelen dati1 dati2 :
  fd_inv st -> outname <> [] ->
  let r := snd (materialize infile txtfile start offset i st outname namelen
                  startclust pathind filelen dati1 dati2) in
  (exists st', r = inr st' /\ fd_inv st')
  \/ r = inl (Raise (KeyError pathind))
  \/ r = inl (Raise SeekError)
  \/ (r = inl (Raise ValueError) /\ In 0 outname)
  \/ (r = inl (Raise FileNotFoundError) /\ pathind = 0xFFFF).
Proof.
  intros [[old Hold] Hpaths] Hne r. subst r. unfold materialize.
  set (switch := if negb (pathind =? oldpathind st) then _ else _).
  assert (Hswitch :
    (snd switch = inr (FdState (paths st) pathind)
     /\ is_Some (paths st !! pathind))
    \/ snd switch = inl (Raise (KeyError pathind))
    \/ (snd switch = inl (Raise FileNotFoundError) /\ pathind = 0xFFFF)).
  { subst switch. destruct (Z.eqb_spec pathind (oldpathind st)) as [-> | Hneq];
      cbn [negb].
    - left. split; [destruct st; reflexivity | eexists; exact Hold].
    - unfold dict_get. rewrite Hold. cbn [orelse].
      rewrite bind_ret, chdir_up_events, bind_ok.
      destruct (paths st !! pathind) as [new |] eqn:Hnew; cbn [orelse];
        [| right; left; reflexivity].
      rewrite bind_ret. cbn [prepend snd]. unfold os_chdir.
      destruct (Hpaths _ _ Hnew) as [Hnul Hroot].
      destruct new as [| c new].
      + right; right. split; [reflexivity | apply Hroot; reflexivity].
      + rewrite path_check_clean by (exact Hnul || discriminate).
        left. split; [reflexivity | eexists; reflexivity]. }
  rewrite snd_bind.
  destruct Hswitch as [[-> [parent Hparent]] | [-> | [-> Hroot]]];
    [| right; left; reflexivity
     | right; right; right; right; split; [reflexivity | exact Hroot]].
  rewrite snd_bind. cbn [paths oldpathind].
  assert (Hwhen : forall m, snd (when txtfile (txt_write m)) = inr tt)
    by (intros m; destruct txtfile; reflexivity).
  destruct (existsb (Z.eqb 0) outname) eqn:Hnul.
  - (* a NUL in the name *)
    assert (Hin : In 0 outname).
    { apply existsb_exists in Hnul. destruct Hnul as (x & Hx & Heq).
      apply Z.eqb_eq in Heq. subst x. exact Hx. }
    destruct (Z.land namelen 128 =? 128).
    + unfold dict_get. rewrite Hparent. cbn [orelse].
      rewrite bind_ret. unfold do_mkdir, os_mkdir.
      rewrite path_check_nul by exact Hnul.
      right; right; right; left. split; [reflexivity | exact Hin].
    + rewrite snd_bind, Hwhen, snd_bind.
      destruct (read_blocks_outcome infile offset [] startclust
                  (startclust * 4096 + start) filelen) as [[data ->] | ->];
        [| right; right; left; reflexivity].
      unfold open_write. rewrite path_check_nul by exact Hnul.
      right; right; right; left. split; [reflexivity | exact Hin].
  - (* a name the host is asked about *)
    unfold do_mkdir, os_mkdir, open_write, do_utime.
    rewrite !path_check_clean by assumption.
    destruct (Z.land namelen 128 =? 128).
    + unfold dict_get. rewrite Hparent. cbn [orelse].
      rewrite bind_ret. left. eexists. split; [reflexivity |].
      split; cbn [paths oldpathind].
      * rewrite lookup_insert_is_Some. destruct (decide (i = pathind)); eauto.
      * intros k p Hk. apply lookup_insert_Some in Hk.
        destruct Hk as [[_ <-] | [_ Hk]]; [| exact (Hpaths k p Hk)].
        destruct (Hpaths _ _ Hparent) as [Hpn _].
        split.
        -- rewrite !existsb_app, Hpn, Hnul. reflexivity.
        -- intros Hnil. apply app_eq_nil in Hnil. destruct Hnil as [_ Hnil].
           apply app_eq_nil in Hnil. destruct Hnil as [_ Hnil]. discriminate Hnil.
    + rewrite snd_bind, Hwhen, snd_bind.
      destruct (read_blocks_outcome infile offset [] startclust
                  (startclust * 4096 + start) filelen) as [[data ->] | ->];
        [| right; right; left; reflexivity].
      left. eexists. split; [reflexivity |].
      split; cbn [paths oldpathind]; [eexists; exact Hparent | exact Hpaths].
Qed.

Lemma for_loop_outcome {A S} (I : S -> Prop) (Q : exn -> Prop) (l : list A)
    (body : A -> S -> M S) :
  (forall x s, In x l -> I s ->
     match snd (body x s) with
     | inr s' => I s'
     | inl (Raise e) => Q e
     | inl _ => True
     end) ->
  forall s, I s ->
    match snd (for_loop l body s) with
    | inr s' => I s'
    | inl (Raise e) => Q e
    | inl _ => False
    end.
Proof.
  induction l as [| x l IH]; intros Hb s Hs; [exact Hs |].
  cbn [for_loop].
  pose proof (Hb x s (or_introl eq_refl) Hs) as Hx.
  assert (Hl : forall y s', In y l -> I s' ->
                 match snd (body y s') with
                 | inr s'' => I s'' | inl (Raise e) => Q e | inl _ => True
                 end)
    by (intros y s' Hy; apply Hb; right; exact Hy).
  destruct (body x s) as [t [[| | e] | s']]; cbn [snd prepend] in *.
  - apply IH; assumption.
  - exact Hs.
  - exact Hx.
  - apply IH; assumption.
Qed.

Lemma record_short contents i :
  0 <= i -> (length (record contents i) < 64)%nat ->
  len contents < 64 * (i + 1).
Proof.
  unfold record, slice, len. rewrite length_take, length_drop. lia.
Qed.

(** Only the empty [bytes] value decodes to the empty string. *)
Lemma utf8_decode_nil (bs : list Z) : utf8_decode bs = Some [] -> bs = [].
Proof.
  destruct bs as [| b0 t0]; [reflexivity |]. intros H. exfalso.
  cbn [utf8_decode] in H.
  repeat match type of H with
         | (if ?c then _ else _) = _ => destruct c
         | match ?t with [] => _ | _ :: _ => _ end = _ => destruct t
         | (cons _ <$> ?o) = _ => destruct o; discriminate H
         | None = _ => discriminate H
         end.
Qed.

(** The name of a whole record that passed the check of its length is not
    empty. *)
Lemma rec_rawname_decoded cur outname :
  length cur = 64%nat -> 1 <= rec_nlen cur ->
  utf8_decode (rec_rawname cur) = Some outname -> outname <> [].
Proof.
  intros Hlen Hn Hdec ->. apply utf8_decode_nil in Hdec.
  apply (f_equal (@length Z)) in Hdec. unfold rec_rawname, rec_name, slice in Hdec.
  rewrite length_take, length_drop, length_take in Hdec. cbn [length] in Hdec.
  lia.
Qed.

Lemma fd_body_outcome infile txtfile contents makedir start offset limit i st :
  0 <= i < limit -> fd_inv st ->
  match snd (fd_body infile txtfile contents makedir start offset i st) with
  | inr st' => fd_inv st'
  | inl (Raise e) => fd_failure contents limit e
  | inl _ => True
  end.
Proof.
  intros Hi Hinv.
  destruct (fd_body_cases infile txtfile contents makedir start offset i st)
    as [(_ & _ & ->) | [(_ & _ & _ & ->) | [(Hlen & Hnz & _ & ->)
        | (Hshort & [-> | [-> | ->]])]]]; cbn [snd]; trivial.
  - unfold checked.
    destruct (_ || _) eqn:Hn; [exact I |].
    apply orb_false_iff in Hn. destruct Hn as [Hn _]. apply Z.ltb_ge in Hn.
    destruct (utf8_decode (rec_rawname (record contents i))) as [outname |]
      eqn:Hdec.
    2:{ right; left. split; [reflexivity |]. exists i. split; assumption. }
    cbn [prepend snd].
    destruct (negb _); [exact I |].
    destruct (_ && _); [exact I |].
    destruct (_ <? _); [exact I |].
    destruct (materialize_outcome infile txtfile start offset i st outname
                (rec_namelen (record contents i))
                (rec_startclust (record contents i))
                (rec_pathind (record contents i))
                (rec_filelen (record contents i))
                (rec_dati1 (record contents i))
                (rec_dati2 (record contents i)) Hinv
                (rec_rawname_decoded _ _ Hlen Hn Hdec))
      as [(st' & -> & Hinv') | [-> | [-> | [[-> Hin] | [-> Hroot]]]]].
    + exact Hinv'.
    + right; right; left. exists i. split; [exact Hi | reflexivity].
    + right; right; right; left. reflexivity.
    + do 4 right. left. split; [reflexivity |]. exists i, outname. auto.
    + do 5 right. split; [reflexivity |]. exists i. auto.
  - left. split; [left; reflexivity |].
    pose proof (record_short contents i ltac:(lia) Hshort). lia.
  - left. split; [right; reflexivity |].
    pose proof (record_short contents i ltac:(lia) Hshort). lia.
Qed.

Lemma fd_init_inv : fd_inv fd_init.
Proof.
  split; [eexists; reflexivity |].
  intros k p Hk. cbn [paths fd_init] in Hk.
  apply lookup_singleton_Some in Hk. destruct Hk as [<- <-].
  split; [reflexivity | reflexivity].
Qed.

(** How [fill_directory] can end. *)
Lemma fill_directory_outcome infile txtfile contents firstclust makedir
    start offset :
  let r := fill_directory infile txtfile contents firstclust makedir start offset in
  snd r = inr tt
  \/ exists e, snd r = inl (Raise e)
               /\ fd_failure contents (0x1000 * firstclust / 64) e.
Proof.
  intros r. subst r. unfold fill_directory. rewrite snd_bind.
  pose proof (for_loop_outcome fd_inv
                (fd_failure contents (0x1000 * firstclust / 64))
                (seqZ 0 (0x1000 * firstclust / 64))
                (fd_body infile txtfile contents makedir start offset)) as H.
  specialize (H (fun i st Hi => fd_body_outcome infile txtfile contents makedir
                                  start offset _ i st
                                  (proj1 (In_seqZ _ _ _) Hi))
                fd_init fd_init_inv).
  unfold fd_scan.
  destruct (snd (for_loop _ _ fd_init)) as [[| | e] | st]; try contradiction.
  - right. exists e. split; [reflexivity | exact H].
  - destruct H as [[old Hold] _]. unfold dict_get. rewrite Hold. cbn [orelse].
    rewrite bind_ret, chdir_up_events. left. reflexivity.
Qed.


(** ** Names in ASCII *)

Lemma utf8_decode_ascii (bs : list Z) :
  Forall (fun b => 0 <= b < 128) bs -> utf8_decode bs = Some bs.
Proof.
  induction 1 as [| b bs Hb _ IH]; [reflexivity |].
  cbn [utf8_decode]. unfold in_range.
  destruct (Z.leb_spec 0 b); [| lia]. destruct (Z.leb_spec b 127); [| lia].
  cbn [andb]. rewrite IH. reflexivity.
Qed.

(** X7: A whole record whose name is in ASCII and that violates one of the
    checked invariants is always skipped: the iteration prints a reason,
    issues no call on the output side, leaves through [continue], and
    the scan goes on with the next record and the same variables. *)
Theorem fd_body_skips_ascii infile txtfile contents start offset i st :
  let cur := record contents i in
  let body := fd_body infile txtfile contents true start offset in
  length cur = 64%nat ->
  rec_namelen cur <> 0 ->
  Forall (fun b => 0 <= b < 128) (rec_rawname cur) ->
  violated cur ->
  exists lines msg,
    body i st = (lines ++ [EPrint msg], inl Continue)
    /\ (lines = [] \/ lines = name_lines txtfile cur (rec_rawname cur))
    /\ forall l, for_loop (i :: l) body st
                 = prepend (lines ++ [EPrint msg]) (for_loop l body st).
Proof.
  intros cur body Hlen Hnz Hascii Hv.
  assert (Hbody : body i st = checked infile txtfile start offset i st cur)
    by (apply fd_body_checked; assumption).
  assert (Hskip : exists lines msg,
             body i st = (lines ++ [EPrint msg], inl Continue)
             /\ (lines = [] \/ lines = name_lines txtfile cur (rec_rawname cur))).
  { rewrite Hbody. unfold checked.
    destruct ((rec_nlen cur <? 1) || (40 <? rec_nlen cur)) eqn:Hn.
    { exists [], (msg_namelen (rec_nlen cur)). split; [reflexivity | left; reflexivity]. }
    rewrite (utf8_decode_ascii _ Hascii).
    exists (name_lines txtfile cur (rec_rawname cur)).
    apply orb_false_iff in Hn. destruct Hn as [Hn1 Hn2].
    apply Z.ltb_ge in Hn1, Hn2.
    destruct (Z.eqb_spec (rec_clustsize1 cur) (rec_clustsize2 cur)) as [Hcs | Hcs];
      cbn [negb]; [| eexists; split; [reflexivity | right; reflexivity]].
    destruct ((rec_startclust cur <? 1) && negb (rec_is_dir cur)) eqn:Hsc;
      [eexists; split; [reflexivity | right; reflexivity] |].
    destruct (Z.ltb_spec (4096 * rec_clustsize1 cur) (rec_filelen cur)) as [Hfl | Hfl];
      [eexists; split; [reflexivity | right; reflexivity] |].
    exfalso. destruct Hv as [[Hv | Hv] | [Hv | [[Hv1 Hv2] | Hv]]];
      [lia | lia | apply Hv, Hcs | | lia].
    apply andb_false_iff in Hsc. destruct Hsc as [Hsc | Hsc].
    - apply Z.ltb_ge in Hsc. lia.
    - rewrite Hv2 in Hsc. discriminate. }
  destruct Hskip as (lines & msg & Hb & Hlines).
  exists lines, msg. split; [exact Hb |]. split; [exact Hlines |].
  intros l. apply for_loop_continue, Hb.
Qed.

Lemma fd_body_skips_ascii_witness :
  exists lines msg,
    fd_body sample_infile true sample_mismatch true 0 4096 0 fd_init
    = (lines ++ [EPrint msg], inl Continue)
    /\ (lines = []
        \/ lines = name_lines true (record sample_mismatch 0)
                     (rec_rawname (record sample_mismatch 0)))
    /\ forall l,
         for_loop (0 :: l) (fd_body sample_infile true sample_mismatch true 0 4096)
           fd_init
         = prepend (lines ++ [EPrint msg])
             (for_loop l (fd_body sample_infile true sample_mismatch true 0 4096)
                fd_init).
Proof.
  apply (fd_body_skips_ascii sample_infile true sample_mismatch 0 4096 0 fd_init).
  - reflexivity.
  - vm_compute. discriminate.
  - vm_compute. repeat constructor; discriminate.
  - right; left. vm_compute. discriminate.
Defined.

(** ** Files without content *)



(** ** Back to the root *)




(** ** Times *)

Lemma mstime_date_part (t : Z) :
  0 <= t < 2 ^ 32 -> Z.shiftr (Z.land t 0xFFFF0000) 16 = t / 2 ^ 16.
Proof.
  intros Ht. rewrite <- Z.shiftr_div_pow2 by lia.
  apply Z.bits_inj'. intros n Hn.
  rewrite !Z.shiftr_spec, Z.land_spec by lia.
  change 0xFFFF0000 with (Z.shiftl (Z.ones 16) 16).
  rewrite Z.shiftl_spec by lia.
  replace (n + 16 - 16) with n by lia.
  destruct (Z.lt_ge_cases n 16) as [Hlo | Hhi].
  - rewrite Z.ones_spec_low by lia. apply andb_true_r.
  - rewrite Z.ones_spec_high by lia. rewrite andb_false_r. symmetry.
    destruct (Z.eq_dec t 0) as [-> | Hne]; [apply Z.bits_0 |].
    apply Z.bits_above_log2; [lia |].
    assert (Z.log2 t < 32) by (apply Z.log2_lt_pow2; lia). lia.
Qed.

(** The fields of [mstime] by division: a 32-bit time is
    [((((year - 1980) * 16 + month) * 32 + day) * 32 + hour) * 64 + minute)
    * 32 + second / 2]. *)
Lemma mstime_fields (t : Z) :
  0 <= t < 2 ^ 32 ->
  mstime t
  = TimeTuple (t / 2 ^ 25 + 1980) ((t / 2 ^ 21) mod 16) ((t / 2 ^ 16) mod 32)
              ((t mod 2 ^ 16) / 2 ^ 11) ((t mod 2 ^ 16) / 2 ^ 5 mod 64)
              (t mod 32 * 2) 0 0 (-1).
Proof.
  intros Ht. unfold mstime. cbv zeta.
  rewrite mstime_date_part by exact Ht.
  change 0x0000FFFF with (Z.ones 16). change 0xFFFF with (Z.ones 16).
  change 0x0F with (Z.ones 4). change 0x1F with (Z.ones 5).
  change 0x3F with (Z.ones 6).
  rewrite !Z.land_ones by lia. rewrite !Z.shiftr_div_pow2 by lia.
  rewrite Z.mod_mod by lia.
  f_equal.
  - rewrite Z.div_div by lia. reflexivity.
  - rewrite Z.div_div by lia. reflexivity.
  - f_equal. change (2 ^ 16) with (2 ^ 5 * 2 ^ 11).
    rewrite Z.rem_mul_r by lia. change (2 ^ 5) with 32.
    rewrite Z.mul_comm, Z.mod_add by lia. apply Z.mod_mod. lia.
Qed.

(** X9: The ranges of the fields for a 32-bit time: years 1980 to 2107, a
    month below 16, a day below 32, an hour below 32, a minute below 64,
    an even second below 64. *)
Theorem mstime_ranges (t : Z) :
  0 <= t < 2 ^ 32 ->
  1980 <= tm_year (mstime t) <= 2107
  /\ 0 <= tm_mon (mstime t) <= 15
  /\ 0 <= tm_mday (mstime t) <= 31
  /\ 0 <= tm_hour (mstime t) <= 31
  /\ 0 <= tm_min (mstime t) <= 63
  /\ 0 <= tm_sec (mstime t) <= 62 /\ tm_sec (mstime t) mod 2 = 0.
Proof.
  intros Ht. rewrite mstime_fields by exact Ht. cbn [tm_year tm_mon tm_mday tm_hour tm_min tm_sec].
  change (2 ^ 32) with 4294967296 in Ht.
  change (2 ^ 25) with 33554432. change (2 ^ 21) with 2097152.
  change (2 ^ 16) with 65536. change (2 ^ 11) with 2048. change (2 ^ 5) with 32.
  repeat split; try (Z.to_euclidean_division_equations; lia).
Qed.

Lemma mstime_ranges_witness :
  1980 <= tm_year (mstime 0x3A21_6000) <= 2107
  /\ 0 <= tm_mon (mstime 0x3A21_6000) <= 15
  /\ 0 <= tm_mday (mstime 0x3A21_6000) <= 31
  /\ 0 <= tm_hour (mstime 0x3A21_6000) <= 31
  /\ 0 <= tm_min (mstime 0x3A21_6000) <= 63
  /\ 0 <= tm_sec (mstime 0x3A21_6000) <= 62
  /\ tm_sec (mstime 0x3A21_6000) mod 2 = 0.
Proof.
  apply (mstime_ranges 0x3A21_6000). lia.
Defined.

(** X10: [mstime] loses nothing of a 32-bit time: two times with the same
    fields are the same. *)
Theorem mstime_injective (t t' : Z) :
  0 <= t < 2 ^ 32 -> 0 <= t' < 2 ^ 32 -> mstime t = mstime t' -> t = t'.
Proof.
  intros Ht Ht' Heq. rewrite !mstime_fields in Heq by assumption.
  injection Heq as Hy Hmo Hd Hh Hmi Hs.
  change (2 ^ 32) with 4294967296 in *.
  change (2 ^ 25) with 33554432 in *. change (2 ^ 21) with 2097152 in *.
  change (2 ^ 16) with 65536 in *. change (2 ^ 11) with 2048 in *.
  change (2 ^ 5) with 32 in *.
  Z.to_euclidean_division_equations. lia.
Qed.

Lemma mstime_injective_witness : 0x3A21_6000 = 0x3A21_0000 + 0x6000.
Proof.
  apply (mstime_injective 0x3A21_6000 (0x3A21_0000 + 0x6000));
    [lia | lia | reflexivity].
Defined.

(** ** Embedded NULs *)

Lemma rm_nul_acc (s acc : list Z) :
  fold_left (fun rstr i => if 0 <? i then rstr ++ [i] else rstr) s acc
  = acc ++ rm_nul s.
Proof.
  unfold rm_nul. revert acc.
  induction s as [| c s IH] using rev_ind; intros acc.
  - simpl. rewrite app_nil_r. reflexivity.
  - rewrite !fold_left_app. simpl. rewrite IH.
    destruct (0 <? c); [rewrite app_assoc |]; reflexivity.
Qed.

(** X11: [rm_nul] keeps, in their order, exactly the characters that are not
    NUL, and applying it again changes nothing. *)
Theorem rm_nul_removes_nul (s : list Z) :
  Forall (fun c => 0 <= c) s ->
  rm_nul s = filter (fun c => c <> 0) s
  /\ Forall (fun c => c <> 0) (rm_nul s)
  /\ rm_nul (rm_nul s) = rm_nul s.
Proof.
  intros Hs.
  assert (Hfilter : rm_nul s = filter (fun c => c <> 0) s).
  { induction Hs as [| c s Hc _ IH]; [reflexivity |].
    unfold rm_nul. cbn [fold_left]. rewrite rm_nul_acc, IH.
    rewrite filter_cons.
    destruct (Z.ltb_spec 0 c); destruct (decide (c <> 0)); try lia; reflexivity. }
  split; [exact Hfilter |]. split.
  - rewrite Hfilter. apply Forall_forall. intros c Hc.
    apply list_elem_of_filter in Hc. tauto.
  - rewrite Hfilter.
    assert (Hpos : Forall (fun c => 0 <= c) (filter (fun c => c <> 0) s)).
    { apply Forall_forall. intros c Hc. apply list_elem_of_filter in Hc.
      rewrite Forall_forall in Hs. apply Hs. tauto. }
    clear Hfilter.
    induction s as [| c s IH]; [reflexivity |].
    inversion Hs; subst. rewrite filter_cons.
    destruct (decide (c <> 0)) as [Hc | Hc].
    + unfold rm_nul. cbn [fold_left].
      destruct (Z.ltb_spec 0 c); [| lia].
      rewrite rm_nul_acc. cbn [app]. f_equal. apply IH; [assumption |].
      rewrite filter_cons in Hpos. destruct (decide (c <> 0)); [| contradiction].
      inversion Hpos; assumption.
    + apply IH; [assumption |].
      rewrite filter_cons in Hpos. destruct (decide (c <> 0)); [contradiction |].
      exact Hpos.
Qed.

Lemma rm_nul_removes_nul_witness :
  rm_nul [65; 0; 66; 0] = filter (fun c => c <> 0) [65; 0; 66; 0]
  /\ Forall (fun c => c <> 0) (rm_nul [65; 0; 66; 0])
  /\ rm_nul (rm_nul [65; 0; 66; 0]) = rm_nul [65; 0; 66; 0].
Proof.
  apply (rm_nul_removes_nul [65; 0; 66; 0]). repeat constructor; lia.
Defined.

(** ** Stripping twice *)

Lemma lstrip_fixed chars s :
  (forall c, head s = Some c -> mem c chars = false) -> lstrip chars s = s.
Proof.
  destruct s as [| c s]; [reflexivity |]. intros H. simpl.
  rewrite (H c eq_refl). reflexivity.
Qed.

Lemma rstrip_fixed chars s :
  (forall c, last s = Some c -> mem c chars = false) -> rstrip chars s = s.
Proof.
  intros H. unfold rstrip. rewrite lstrip_fixed; [apply rev_involutive |].
  intros c Hc. apply H. rewrite <- (rev_involutive s), last_rev_head. exact Hc.
Qed.

(** X12: Stripping what has been stripped changes nothing. *)
Theorem strip_blanks_idempotent (s : list Z) :
  strip_blanks (strip_blanks s) = strip_blanks s.
Proof.
  destruct (strip_blanks_split s) as (pre & suf & _ & _ & _ & Hhd & Hlast).
  unfold strip_blanks at 1.
  rewrite rstrip_fixed by exact Hlast.
  apply lstrip_fixed. exact Hhd.
Qed.

(** ** Content types that are never reported *)

Lemma land_lor_zero (v a b : Z) :
  Z.land v (Z.lor a b) = 0 <-> Z.land v a = 0 /\ Z.land v b = 0.
Proof. rewrite Z.land_lor_distr_r. apply Z.lor_eq_0_iff. Qed.

(** X13: The tests for 0x00030000, 0x00090000 and 0x000C0000 between them fire
    on every value with one of the bits 16 to 19, so the five tests after
    them never decide: no content type is reported as "XBox Live Arcade",
    "Gamer profile", "Gamer picture", "System update" or "Full game
    demo". *)
Theorem content_type_labels_reached (v : Z) :
  In (content_type_label v)
     ["(no type)"; "Game save"; "Game add-on"; "Theme"; "Video clip";
      "Game trailer"; "(unknown)"]%string.
Proof.
  unfold content_type_label, truthy.
  destruct (v =? 0); [simpl; tauto |].
  destruct (Z.land v 1 =? 0); [| simpl; tauto].
  destruct (Z.land v 2 =? 0); [| simpl; tauto].
  destruct (Z.eqb_spec (Z.land v 0x00030000) 0) as [H3 |]; [| simpl; tauto].
  destruct (Z.eqb_spec (Z.land v 0x00090000) 0) as [H9 |]; [| simpl; tauto].
  destruct (Z.eqb_spec (Z.land v 0x000C0000) 0) as [HC |]; [| simpl; tauto].
  change 0x00030000 with (Z.lor 0x00010000 0x00020000) in H3.
  change 0x00090000 with (Z.lor 0x00010000 0x00080000) in H9.
  change 0x000C0000 with (Z.lor 0x00040000 0x00080000) in HC.
  apply land_lor_zero in H3, H9, HC.
  destruct H3 as [H1 H2], H9 as [_ H8], HC as [H4 _].
  assert (HD : Z.land v 0x000D0000 = 0).
  { change 0x000D0000 with (Z.lor 0x00010000 (Z.lor 0x00040000 0x00080000)).
    rewrite !land_lor_zero. auto. }
  rewrite HD, H1, H2, H4, H8. simpl. tauto.
Qed.

(** ** The hash table: what is reported and when the scan fails *)

Lemma for_each_app {A} (l1 l2 : list A) (body : A -> M unit) (t : list event) :
  for_each l1 body = (t, inr tt) ->
  for_each (l1 ++ l2) body = prepend t (for_each l2 body).
Proof.
  revert t. induction l1 as [| x l1 IH]; intros t H.
  - injection H as <-. cbn [app]. destruct (for_each l2 body). reflexivity.
  - cbn [app for_each] in *.
    destruct (body x) as [tx [c | []]]; [rewrite bind_leave in H; discriminate |].
    rewrite bind_ok in *. unfold prepend in H.
    destruct (for_each l1 body) as [t1 [c | []]] eqn:H1; [discriminate |].
    injection H as <-. rewrite (IH t1 eq_refl).
    unfold prepend. cbn [fst snd]. rewrite app_assoc. reflexivity.
Qed.

Lemma for_each_index (l : list Z) (f : Z -> event) (m : nat) :
  (m <= length l)%nat ->
  for_each (seqZ 0 (Z.of_nat m))
    (fun j => b ← orelse (index l j) IndexError; emit (f b))
  = (map f (take m l), inr tt).
Proof.
  induction m as [| m IH]; intros Hm; [reflexivity |].
  replace (Z.of_nat (S m)) with (Z.of_nat m + 1) by lia.
  rewrite seqZ_app by lia.
  rewrite (for_each_app _ _ _ _ (IH ltac:(lia))).
  destruct (lookup_lt_is_Some_2 l m ltac:(lia)) as [x Hx].
  rewrite (take_S_r _ _ _ Hx), map_app.
  rewrite (seqZ_cons _ 1) by lia. rewrite (seqZ_nil _ (Z.pred 1)) by lia.
  cbn [for_each]. rewrite Z.add_0_l.
  unfold index. destruct (Z.ltb_spec (Z.of_nat m) 0); [lia |].
  rewrite Nat2Z.id, Hx. reflexivity.
Qed.

Lemma for_each_emit {A} (l : list A) (f : A -> event) :
  for_each l (fun x => emit (f x)) = (map f l, inr tt).
Proof.
  induction l as [| x l IH]; [reflexivity |].
  cbn [for_each]. rewrite IH. reflexivity.
Qed.

Lemma hash_at_length (buf : list Z) (i : Z) :
  0 <= i < len buf / 24 -> length (hash_at buf i) = 24%nat.
Proof.
  intros Hi. unfold hash_at, slice, len in *.
  rewrite length_take, length_drop.
  pose proof (Z.mul_div_le (Z.of_nat (length buf)) 24 ltac:(lia)). lia.
Qed.

Lemma hash_entry_used (buf : list Z) (i : Z) :
  length (hash_at buf i) = 24%nat -> used (hash_at buf i) ->
  hash_entry buf i 0 = (entry_report (hash_at buf i), inr 0).
Proof.
  intros Hlen Hused. unfold hash_entry. fold (hash_at buf i).
  set (entry := hash_at buf i) in *.
  destruct (Z.ltb_spec (count 0 entry) 24); [| unfold used in Hused; lia].
  assert (Hfe :
    for_each (seqZ 0 20)
      (fun j => b ← orelse (index entry j) IndexError; txt_write (hex b))
    = (map (fun b => ETxtWrite (hex b)) (take 20 entry), inr tt))
    by (apply (for_each_index entry (fun b => ETxtWrite (hex b)) 20); lia).
  assert (HL : unpack_L (slice entry 20 24) = Some (be32 entry 20)).
  { unfold unpack_L, slice.
    change (Z.to_nat (24 - 20)) with 4%nat. change (Z.to_nat 20) with 20%nat.
    assert (Hl : length (take 4 (drop 20 entry)) = 4%nat)
      by (rewrite length_take, length_drop; lia).
    rewrite Hl. cbn [Nat.eqb]. unfold be32.
    rewrite !byte_at_take by lia. rewrite !byte_at_drop. reflexivity. }
  rewrite Hfe, HL. unfold entry_report.
  generalize (map (fun b => ETxtWrite (hex b)) (take 20 entry)). intros digest.
  generalize (be32 entry 20). intros id.
  unfold mbind, M_bind, bind, prepend, txt_write, emit, orelse, mret, M_ret, ret.
  cbn [fst snd Z.ltb Z.compare]. rewrite app_nil_r. reflexivity.
Qed.

Lemma hash_entry_empty (buf : list Z) (i numempty : Z) :
  ~ used (hash_at buf i) ->
  hash_entry buf i numempty = ([], inr (numempty + 1)).
Proof.
  intros Hempty. unfold hash_entry. fold (hash_at buf i).
  destruct (Z.ltb_spec (count 0 (hash_at buf i)) 24);
    [exfalso; apply Hempty; assumption | reflexivity].
Qed.

Lemma hash_entry_type_error (buf : list Z) (i numempty : Z) :
  used (hash_at buf i) -> 0 < numempty ->
  hash_entry buf i numempty = ([], inl (Raise TypeError)).
Proof.
  intros Hused Hn. unfold hash_entry. fold (hash_at buf i).
  destruct (Z.ltb_spec (count 0 (hash_at buf i)) 24);
    [| unfold used in Hused; lia].
  destruct (Z.ltb_spec 0 numempty); [reflexivity | lia].
Qed.

(** The loop over the used entries at the head of a list of indices. *)
Lemma hash_loop_used (buf : list Z) (l1 l2 : list Z) :
  (forall i, In i l1 -> length (hash_at buf i) = 24%nat /\ used (hash_at buf i)) ->
  for_loop (l1 ++ l2) (hash_entry buf) 0
  = prepend (flat_map (fun i => entry_report (hash_at buf i)) l1)
      (for_loop l2 (hash_entry buf) 0).
Proof.
  induction l1 as [| i l1 IH]; intros H.
  - cbn [app]. destruct (for_loop l2 (hash_entry buf) 0). reflexivity.
  - cbn [app for_loop flat_map].
    destruct (H i (or_introl eq_refl)) as [Hlen Hused].
    rewrite (hash_entry_used buf i Hlen Hused).
    rewrite IH by (intros j Hj; apply H; right; exact Hj).
    unfold prepend. cbn [fst snd]. rewrite app_assoc. reflexivity.
Qed.

(** The loop over empty entries only counts them. *)
Lemma hash_loop_empty (buf : list Z) (l1 l2 : list Z) (numempty : Z) :
  (forall i, In i l1 -> ~ used (hash_at buf i)) ->
  for_loop (l1 ++ l2) (hash_entry buf) numempty
  = for_loop l2 (hash_entry buf) (numempty + len l1).
Proof.
  revert numempty. induction l1 as [| i l1 IH]; intros numempty H.
  - unfold len. simpl. rewrite Z.add_0_r. reflexivity.
  - cbn [app for_loop].
    rewrite (hash_entry_empty buf i numempty (H i (or_introl eq_refl))).
    rewrite IH by (intros j Hj; apply H; right; exact Hj).
    unfold prepend. cbn [fst snd app]. unfold len. cbn [length].
    replace (numempty + 1 + Z.of_nat (length l1))
      with (numempty + Z.of_nat (S (length l1))) by lia.
    destruct (for_loop l2 _ _). reflexivity.
Qed.

(** X14: When every used entry of the table comes before every empty one, the
    report has the used entries in their order, each with its 20 digest
    bytes and its entry id in hex, then the bytes after the last whole
    entry; the empty entries are not mentioned. *)
Theorem scan_hash_table_used_first (buf : list Z) (k : Z) :
  0 <= k <= len buf / 24 ->
  (forall i, 0 <= i < k -> used (hash_at buf i)) ->
  (forall i, k <= i < len buf / 24 -> ~ used (hash_at buf i)) ->
  scan_hash_table buf
  = (flat_map (fun i => entry_report (hash_at buf i)) (seqZ 0 k)
     ++ trailing_report buf,
     inr tt).
Proof.
  intros Hk Hused Hempty.
  assert (Hloop : exists n,
             for_loop (seqZ 0 (len buf / 24)) (hash_entry buf) 0
             = (flat_map (fun i => entry_report (hash_at buf i)) (seqZ 0 k),
                inr n)).
  { eexists.
    replace (len buf / 24) with (k + (len buf / 24 - k)) at 1 by lia.
    rewrite seqZ_app by lia. rewrite Z.add_0_l.
    rewrite hash_loop_used.
    2:{ intros i Hi. apply In_seqZ in Hi. split; [apply hash_at_length; lia |].
        apply Hused. lia. }
    rewrite <- (app_nil_r (seqZ k _)).
    rewrite hash_loop_empty
      by (intros i Hi; apply In_seqZ in Hi; apply Hempty; lia).
    cbn [for_loop]. unfold prepend. cbn [fst snd mret M_ret ret].
    rewrite app_nil_r. reflexivity. }
  destruct Hloop as [n Hloop].
  unfold scan_hash_table. rewrite Hloop.
  unfold txt_write. rewrite for_each_emit.
  unfold trailing_report.
  generalize (flat_map (fun i => entry_report (hash_at buf i)) (seqZ 0 k)).
  intros reports.
  generalize (map (fun x => ETxtWrite (hex x))
                (drop (Z.to_nat (len buf - len buf mod 24)) buf)).
  intros rest.
  unfold mbind, M_bind, bind, prepend, emit, mret, M_ret, ret. cbn [fst snd].
  reflexivity.
Qed.

Lemma scan_hash_table_used_first_witness :
  scan_hash_table (used_entry ++ replicate 48 0 ++ [9])
  = (flat_map (fun i => entry_report
                          (hash_at (used_entry ++ replicate 48 0 ++ [9]) i))
       (seqZ 0 1)
     ++ trailing_report (used_entry ++ replicate 48 0 ++ [9]),
     inr tt).
Proof.
  apply (scan_hash_table_used_first (used_entry ++ replicate 48 0 ++ [9]) 1).
  - vm_compute. split; discriminate.
  - intros i Hi. replace i with 0 by lia. vm_compute. reflexivity.
  - intros i Hi. change (len (used_entry ++ replicate 48 0 ++ [9]) / 24) with 3 in Hi.
    assert (Hcases : i = 1 \/ i = 2) by lia.
    destruct Hcases as [-> | ->]; vm_compute; discriminate.
Defined.

(** X15: When a used entry comes after an empty one, the scan fails at the
    first such entry with [TypeError], having reported only the used
    entries before the first empty one. *)
Theorem scan_hash_table_type_error (buf : list Z) (k j : Z) :
  0 <= k < j -> j < len buf / 24 ->
  (forall i, 0 <= i < k -> used (hash_at buf i)) ->
  (forall i, k <= i < j -> ~ used (hash_at buf i)) ->
  used (hash_at buf j) ->
  scan_hash_table buf
  = (flat_map (fun i => entry_report (hash_at buf i)) (seqZ 0 k),
     inl (Raise TypeError)).
Proof.
  intros Hk Hj Hused Hempty Hj_used. unfold scan_hash_table.
  replace (len buf / 24) with (k + ((j - k) + (len buf / 24 - j))) at 1 by lia.
  rewrite seqZ_app by lia. rewrite Z.add_0_l.
  rewrite hash_loop_used.
  2:{ intros i Hi. apply In_seqZ in Hi. split; [apply hash_at_length; lia |].
      apply Hused. lia. }
  rewrite seqZ_app by lia.
  rewrite hash_loop_empty by (intros i Hi; apply In_seqZ in Hi; apply Hempty; lia).
  rewrite (seqZ_cons _ (len buf / 24 - j)) by lia.
  cbn [for_loop].
  replace (k + (j - k)) with j by lia.
  rewrite hash_entry_type_error;
    [| exact Hj_used | unfold len; rewrite length_seqZ; lia].
  unfold prepend. cbn [fst snd]. rewrite app_nil_r. reflexivity.
Qed.

Lemma scan_hash_table_type_error_witness :
  scan_hash_table (replicate 24 0 ++ used_entry)
  = (flat_map (fun i => entry_report (hash_at (replicate 24 0 ++ used_entry) i))
       (seqZ 0 0),
     inl (Raise TypeError)).
Proof.
  apply (scan_hash_table_type_error (replicate 24 0 ++ used_entry) 0 1).
  - lia.
  - vm_compute. reflexivity.
  - intros i Hi. lia.
  - intros i Hi. replace i with 0 by lia. vm_compute. discriminate.
  - vm_compute. reflexivity.
Defined.

(** ** The scan without a text file *)

Lemma materialize_not_text infile start offset i st outname namelen startclust
    pathind filelen dati1 dati2 :
  events_all not_text
    (materialize infile false start offset i st outname namelen startclust
       pathind filelen dati1 dati2).
Proof.
  unfold materialize.
  apply all_bind.
  { destruct (negb (pathind =? oldpathind st)); [| apply all_ret].
    apply all_bind; [apply all_dict_get |]. intros old _.
    apply all_bind; [apply all_chdir_up; intros p; exact I |]. intros _ _.
    apply all_bind; [apply all_dict_get |]. intros new _.
    apply all_bind; [apply all_os_chdir; exact I |]. intros _ _. apply all_ret. }
  intros st1 _. apply all_bind.
  { destruct (Z.land namelen 128 =? 128).
    - apply all_bind; [apply all_dict_get |]. intros parent _.
      apply all_bind; [apply all_do_mkdir; exact I |]. intros _ _. apply all_ret.
    - apply all_bind; [apply all_ret |].
      intros _ _. apply all_bind.
      { apply all_read_blocks; intros; exact I. }
      intros buf _. apply all_bind; [apply all_open_write; exact I |].
      intros _ _. apply all_ret. }
  intros st2 _. apply all_bind; [apply all_do_utime; exact I |].
  intros _ _. apply all_ret.
Qed.

(** X16: When there is no text file ([txtfile] is [None]) the scan writes
    nothing to it. *)
Theorem fill_directory_without_txtfile infile contents firstclust makedir
    start offset :
  events_all not_text
    (fill_directory infile false contents firstclust makedir start offset).
Proof.
  unfold fill_directory. apply all_bind.
  - unfold fd_scan. apply all_for_loop. intros i st _.
    destruct (fd_body_cases infile false contents makedir start offset i st)
      as [(_ & _ & ->) | [(_ & _ & _ & ->) | [(_ & _ & _ & ->)
          | (_ & [-> | [-> | ->]])]]]; try constructor.
    unfold checked.
    destruct (_ || _); [repeat constructor |].
    destruct (utf8_decode _) as [outname |]; [| constructor].
    apply all_prepend; [constructor |].
    destruct (negb _); [repeat constructor |].
    destruct (_ && _); [repeat constructor |].
    destruct (_ <? _); [repeat constructor |].
    apply materialize_not_text.
  - intros st _. apply all_bind; [apply all_dict_get |]. intros old _.
    apply all_chdir_up. intros p. exact I.
Qed.

(** ** The icons *)

Lemma all_nice_open_file P isfile answer filename :
  (forall msg, P (EPrint msg)) ->
  events_all P (nice_open_file isfile answer filename).
Proof.
  intros HP. unfold nice_open_file. destruct isfile; [| apply all_ret].
  apply all_bind; [apply all_emit, HP | intros _ _; apply all_ret].
Qed.

Lemma all_dump_png P basename isfile answer rest pnglen maxlen pngid :
  (forall msg, P (EPrint msg)) ->
  (forall n, P (ERead n)) ->
  (pnglen <= maxlen ->
   P (EOpenWrite (icon_name basename pngid) (take (Z.to_nat pnglen) rest))) ->
  events_all P (dump_png basename isfile answer rest pnglen maxlen pngid).
Proof.
  intros Hprint Hread Hopen. unfold dump_png.
  destruct (Z.leb_spec pnglen maxlen); [| apply all_emit, Hprint].
  apply all_bind; [apply all_nice_open_file, Hprint |].
  intros [|] _; [| apply all_ret].
  apply all_bind; [apply all_emit, Hread |]. intros _ _.
  apply all_bind; [apply all_emit, Hprint |]. intros _ _.
  apply all_open_write. apply Hopen. assumption.
Qed.

(** An icon that fits its area and that the user lets be written is
    written, with the declared number of bytes from the file position. *)
Lemma dump_png_written basename isfile answer rest pnglen maxlen pngid :
  pnglen <= maxlen -> permitted isfile answer ->
  basename <> [] -> ~ In 0 basename -> ~ In 0 pngid ->
  snd (dump_png basename isfile answer rest pnglen maxlen pngid) = inr tt
  /\ In (EOpenWrite (icon_name basename pngid) (take (Z.to_nat pnglen) rest))
       (fst (dump_png basename isfile answer rest pnglen maxlen pngid)).
Proof.
  intros Hle Hperm Hne Hnul Hid. unfold dump_png.
  destruct (Z.leb_spec pnglen maxlen); [| lia].
  assert (Hask : exists t,
             nice_open_file isfile answer
               (basename ++ lit "_" ++ pngid ++ lit ".png")
             = (t, inr true)).
  { unfold nice_open_file. destruct Hperm as [-> | Hyes].
    - eexists. reflexivity.
    - destruct isfile; [rewrite Hyes |]; eexists; reflexivity. }
  destruct Hask as [t ->]. rewrite bind_ok. unfold open_write.
  rewrite path_check_ok.
  - cbn [read_next fst snd prepend]. split; [reflexivity |].
    apply in_or_app. right. unfold icon_name. cbn. auto.
  - destruct basename; [contradiction | discriminate].
  - intros Hin. rewrite !in_app_iff in Hin.
    destruct Hin as [Hin | [Hin | [Hin | Hin]]];
      [contradiction | | contradiction |];
      vm_compute in Hin; intuition discriminate.
Qed.

Lemma icon_names_differ basename :
  icon_name basename (lit "1") <> icon_name basename (lit "2").
Proof.
  unfold icon_name. intros H. apply app_inv_head in H. discriminate H.
Qed.

(** The header read at 0x1710, when the archive holds its 10 bytes. *)
Lemma icons_header (data : list Z) :
  0x171A <= len data ->
  unpack_HLL (fst (read_next 10 (drop (Z.to_nat 0x1710) data)))
  = Some (be16 (slice data 0x1710 0x171A) 0, png1len data, png2len data).
Proof.
  intros Hlen. unfold unpack_HLL, read_next, png1len, png2len, slice.
  cbn [fst]. change (Z.to_nat (5914 - 5904)) with (Z.to_nat 10).
  assert (Hl : length (take (Z.to_nat 10) (drop (Z.to_nat 5904) data)) = 10%nat)
    by (unfold len in Hlen; rewrite length_take, length_drop; lia).
  rewrite Hl. reflexivity.
Qed.

Lemma icons_header_inv (data : list Z) v l1 l2 :
  unpack_HLL (fst (read_next 10 (drop (Z.to_nat 0x1710) data)))
  = Some (v, l1, l2) ->
  l1 = png1len data /\ l2 = png2len data.
Proof.
  unfold unpack_HLL, read_next, png1len, png2len, slice. cbn [fst].
  change (Z.to_nat (5914 - 5904)) with (Z.to_nat 10).
  destruct (_ =? _)%nat; [| discriminate].
  intros [= _ <- <-]. split; reflexivity.
Qed.

(** X17: Each icon file is written with bytes of its own area of the archive
    only: what is written under the name of the first icon is the
    [png1len] bytes from 0x171A, and only when they end by 0x571A; what is
    written under the name of the second is the [png2len] bytes from
    0x571A, and only when they end by [png2stop]; so an icon whose
    declared length exceeds its area is not written at all, not even in
    part.  This phase makes no directory, changes none and sets no
    times.  An icon of a positive length that fits its area is written
    when the user lets it, the archive holding the header. *)
Theorem dump_icons_within_areas basename isfile1 answer1 isfile2 answer2
    txtfile data png2stop :
  let r := dump_icons basename isfile1 answer1 isfile2 answer2 txtfile data
             png2stop in
  events_all (icon_write basename data png2stop) r
  /\ (0x571A - 0x171A < png1len data ->
      forall buf, ~ In (EOpenWrite (icon_name basename (lit "1")) buf) (fst r))
  /\ (png2stop - 0x571A < png2len data ->
      forall buf, ~ In (EOpenWrite (icon_name basename (lit "2")) buf) (fst r))
  /\ (0x171A <= len data -> basename <> [] -> ~ In 0 basename ->
      (0 < png1len data <= 0x571A - 0x171A -> permitted isfile1 answer1 ->
       In (EOpenWrite (icon_name basename (lit "1"))
             (slice data 0x171A (0x171A + png1len data))) (fst r))
      /\ (0 < png2len data <= png2stop - 0x571A -> permitted isfile2 answer2 ->
          png1len data <= 0x571A - 0x171A -> permitted isfile1 answer1 ->
          In (EOpenWrite (icon_name basename (lit "2"))
                (slice data 0x571A (0x571A + png2len data))) (fst r))).
Proof.
  intros r.
  assert (Hall : events_all (icon_write basename data png2stop) r).
  { subst r. unfold dump_icons.
    destruct (read_next 10 (drop (Z.to_nat 5904) data)) as [header rest] eqn:Hrd.
    apply all_bind; [apply all_emit; exact I |]. intros _ _.
    apply all_bind; [apply all_emit; exact I |]. intros _ _.
    apply all_bind; [apply all_orelse |]. intros [[val1 l1] l2] Hhdr.
    apply orelse_inr in Hhdr.
    assert (Hh : header = fst (read_next 10 (drop (Z.to_nat 5904) data)))
      by (rewrite Hrd; reflexivity).
    rewrite Hh in Hhdr. apply icons_header_inv in Hhdr.
    destruct Hhdr as [-> ->].
    assert (Hrest : rest = drop (Z.to_nat 5914) data).
    { unfold read_next in Hrd. injection Hrd as _ <-. rewrite drop_drop.
      f_equal. }
    apply all_bind; [apply all_when, all_emit; exact I |]. intros _ _.
    apply all_bind.
    - destruct (Z.ltb_spec 0 (png1len data)) as [Hpos |]; [| apply all_ret].
      cbn [when]. apply all_dump_png; try (intros; exact I).
      intros Hle. left. split; [reflexivity |]. split; [lia |].
      rewrite Hrest. unfold slice.
      replace (5914 + png1len data - 5914) with (png1len data) by lia.
      reflexivity.
    - intros _ _.
      destruct (Z.ltb_spec 0 (png2len data)) as [Hpos |]; [| apply all_ret].
      cbn [when]. apply all_bind; [apply all_emit; exact I |]. intros _ _.
      apply all_dump_png; try (intros; exact I).
      intros Hle. right. split; [reflexivity |]. split; [lia |].
      unfold slice.
      replace (22298 + png2len data - 22298) with (png2len data) by lia.
      reflexivity. }
  split; [exact Hall |].
  unfold events_all in Hall. rewrite Forall_forall in Hall.
  split; [| split].
  - intros Hbig buf Hin. apply list_elem_of_In, Hall in Hin.
    cbn [icon_write] in Hin.
    destruct Hin as [(_ & Hle & _) | (Hname & _)]; [lia |].
    exact (icon_names_differ basename Hname).
  - intros Hbig buf Hin. apply list_elem_of_In, Hall in Hin.
    cbn [icon_write] in Hin.
    destruct Hin as [(Hname & _) | (_ & Hle & _)]; [| lia].
    exact (icon_names_differ basename (eq_sym Hname)).
  - intros Hlen Hne Hnul.
    assert (Hid1 : ~ In 0 (lit "1"))
      by (intros [H | H]; [discriminate H | exact H]).
    assert (Hid2 : ~ In 0 (lit "2"))
      by (intros [H | H]; [discriminate H | exact H]).
    assert (Hrun : r
      = (emit (ESeek 0x1710);; emit (ERead 10);;
         when txtfile (txt_write (lit "Value:"
                                  ++ fmt_i (be16 (slice data 0x1710 0x171A) 0)));;
         when (0 <? png1len data)
           (dump_png basename isfile1 answer1 (drop (Z.to_nat 0x171A) data)
              (png1len data) (0x571A - 0x171A) (lit "1"));;
         when (0 <? png2len data)
           (emit (ESeek 0x571A);;
            dump_png basename isfile2 answer2 (drop (Z.to_nat 0x571A) data)
              (png2len data) (png2stop - 0x571A) (lit "2")))).
    { subst r. unfold dump_icons.
      pose proof (icons_header data Hlen) as Hhdr.
      destruct (read_next 10 (drop (Z.to_nat 5904) data)) as [header rest] eqn:Hrd.
      cbn [fst] in Hhdr. rewrite Hhdr. cbn [orelse].
      assert (Hrest : rest = drop (Z.to_nat 5914) data).
      { unfold read_next in Hrd. injection Hrd as _ <-. rewrite drop_drop.
        f_equal. }
      rewrite Hrest. reflexivity. }
    assert (Htxt : exists t,
               when txtfile (txt_write (lit "Value:"
                               ++ fmt_i (be16 (slice data 0x1710 0x171A) 0)))
               = (t, inr tt))
      by (destruct txtfile; eexists; reflexivity).
    destruct Htxt as [t Htxt].
    split.
    + intros [Hpos Hle] Hperm. rewrite Hrun, Htxt.
      destruct (Z.ltb_spec 0 (png1len data)); [| lia]. cbn [when].
      destruct (dump_png_written basename isfile1 answer1
                  (drop (Z.to_nat 5914) data) (png1len data) (22298 - 5914)
                  (lit "1") Hle Hperm Hne Hnul Hid1) as [_ Hin].
      rewrite !fst_bind. cbn [fst snd emit].
      rewrite !in_app_iff. do 3 right. left.
      unfold slice. replace (5914 + png1len data - 5914) with (png1len data) by lia.
      exact Hin.
    + intros [Hpos Hle] Hperm Hle1 Hperm1. rewrite Hrun, Htxt.
      assert (Hfirst : snd (when (0 <? png1len data)
                              (dump_png basename isfile1 answer1
                                 (drop (Z.to_nat 5914) data) (png1len data)
                                 (22298 - 5914) (lit "1"))) = inr tt).
      { destruct (0 <? png1len data); [| reflexivity]. cbn [when].
        apply (dump_png_written basename isfile1 answer1
                 (drop (Z.to_nat 5914) data) (png1len data) (22298 - 5914)
                 (lit "1") Hle1 Hperm1 Hne Hnul Hid1). }
      destruct (Z.ltb_spec 0 (png2len data)); [| lia]. cbn [when].
      destruct (dump_png_written basename isfile2 answer2
                  (drop (Z.to_nat 22298) data) (png2len data) (png2stop - 22298)
                  (lit "2") Hle Hperm Hne Hnul Hid2) as [_ Hin].
      rewrite !fst_bind. cbn [fst snd emit]. rewrite Hfirst.
      rewrite !in_app_iff. do 5 right.
      unfold slice. replace (22298 + png2len data - 22298) with (png2len data) by lia.
      exact Hin.
Qed.

Lemma dump_icons_within_areas_witness :
  In (EOpenWrite (icon_name (lit "a") (lit "1"))
        (slice sample_icons 0x171A (0x171A + png1len sample_icons)))
     (fst (dump_icons (lit "a") false [] false [] false sample_icons 0xB000)).
Proof.
  destruct (dump_icons_within_areas (lit "a") false [] false [] false
              sample_icons 0xB000) as (_ & _ & _ & Hwritten).
  destruct Hwritten as [Hfirst _].
  - vm_compute. discriminate.
  - discriminate.
  - intros [H | H]; [discriminate H | exact H].
  - apply Hfirst.
    + vm_compute. split; [reflexivity | discriminate].
    + left. reflexivity.
Defined.

(** ** The directory area *)

Lemma seek_read_ok (data : list Z) (pos n : Z) :
  0 <= pos ->
  seek_read data pos n
  = ([ESeek pos; ERead n], inr (take (Z.to_nat n) (drop (Z.to_nat pos) data))).
Proof.
  intros Hpos. unfold seek_read, infile_seek.
  destruct (Z.ltb_spec pos 0); [lia | reflexivity].
Qed.

(** X18: When the archive holds the whole directory area (the [4096 *
    firstclust] bytes from [start], [firstclust] being the 16-bit number
    at [start + 0x2F]), every record the scan looks at is whole: the
    directory phase never fails with [IndexError] or [struct.error], and
    the scan covers [64 * firstclust] records. *)
Theorem directory_phase_whole_records basename isdir answer txtfile data
    png2stop start :
  let firstclust := le16 (slice data (start + 0x2F) (start + 0x31)) 0 in
  0 <= start ->
  start + 0x31 <= len data ->
  start + 0x1000 * firstclust <= len data ->
  0x1000 * firstclust / 64 = 64 * firstclust
  /\ snd (directory_phase basename isdir answer txtfile data png2stop start)
     <> inl (Raise IndexError)
  /\ snd (directory_phase basename isdir answer txtfile data png2stop start)
     <> inl (Raise StructError).
Proof.
  intros firstclust Hstart Hhdr Harea.
  assert (Hlimit : 0x1000 * firstclust / 64 = 64 * firstclust).
  { replace (0x1000 * firstclust) with (64 * firstclust * 64) by lia.
    apply Z.div_mul. lia. }
  split; [exact Hlimit |].
  unfold directory_phase.
  rewrite seek_read_ok by lia. rewrite bind_ok.
  assert (Hfc : unpack_H_le (take (Z.to_nat 2) (drop (Z.to_nat (start + 47)) data))
                = Some firstclust).
  { unfold unpack_H_le.
    assert (Hl : length (take (Z.to_nat 2) (drop (Z.to_nat (start + 47)) data))
                 = 2%nat)
      by (unfold len in Hhdr; rewrite length_take, length_drop; lia).
    rewrite Hl. cbn [Nat.eqb]. subst firstclust. unfold slice.
    replace (start + 49 - (start + 47)) with 2 by lia. reflexivity. }
  rewrite Hfc. cbn [orelse]. rewrite bind_ret.
  rewrite seek_read_ok by lia. rewrite bind_ok.
  set (buf := take (Z.to_nat (4096 * firstclust)) (drop (Z.to_nat start) data)).
  assert (Hbuf : 64 * (0x1000 * firstclust / 64) <= len buf).
  { rewrite Hlimit. subst buf. unfold len in *.
    rewrite length_take, length_drop. lia. }
  cbn [prepend snd].
  rewrite snd_bind.
  assert (Hask : exists makedir,
             snd (nice_open_dir isdir answer (basename ++ lit ".dir"))
             = inr makedir)
    by (unfold nice_open_dir; destruct isdir; eexists; reflexivity).
  destruct Hask as [makedir ->].
  rewrite snd_bind.
  assert (Hwhen : forall m,
             let w := when makedir
                        (print m;; do_mkdir (basename ++ lit ".dir");;
                         os_chdir (basename ++ lit ".dir")) in
             snd w = inr tt \/ snd w = inl (Raise ValueError)).
  { intros m w. subst w. destruct makedir; [| left; reflexivity]. cbn [when].
    rewrite snd_bind. cbn [snd print emit]. rewrite snd_bind.
    destruct (do_mkdir_cases (basename ++ lit ".dir"))
      as [[-> [Hnul Hne]] | [[-> _] | [_ Hnil]]].
    - cbn [snd]. unfold os_chdir. rewrite path_check_clean by assumption.
      left. reflexivity.
    - right. reflexivity.
    - exfalso. apply app_eq_nil in Hnil. destruct Hnil as [_ Hnil].
      discriminate Hnil. }
  destruct (Hwhen (lit "Creating and filling content directory "
                   ++ basename ++ lit ".dir")) as [-> | ->];
    [| split; discriminate].
  cbv zeta.
  set (offset := if (png2stop =? 45056) && (start =? 49152) then 4096 else 8192).
  destruct (fill_directory_outcome data txtfile buf firstclust makedir start offset)
    as [-> | (e & -> & Hfail)]; [split; discriminate |].
  split; intros [= ->];
    destruct Hfail as [[_ Hshort] | [[Hu _] | [(i & _ & Hk) | [Hs | [[Hv _]
                       | [Hf _]]]]]];
    try discriminate; lia.
Qed.

Lemma directory_phase_whole_records_witness :
  0x1000 * le16 (slice sample_archive (0xC000 + 0x2F) (0xC000 + 0x31)) 0 / 64
  = 64 * 1
  /\ snd (directory_phase (lit "a") false [] false sample_archive 0xB000 0xC000)
     <> inl (Raise IndexError)
  /\ snd (directory_phase (lit "a") false [] false sample_archive 0xB000 0xC000)
     <> inl (Raise StructError).
Proof.
  apply (directory_phase_whole_records (lit "a") false [] false
           sample_archive 0xB000 0xC000).
  - lia.
  - vm_compute. discriminate.
  - vm_compute. discriminate.
Defined.

(** ** The master hash *)

(** X19: When the digest of the bytes from [start] to [end_] is the reported
    one, [check_sha1] returns the line "SHA1 <id> ok (<digest in hex>)".
    When it is not, and the reported digest is not empty, [check_sha1]
    returns no line: building the text of the reported digest it applies
    [ord] to an integer, which raises [TypeError]. *)
Theorem check_sha1_outcome (sha1_digest : list Z -> list Z) (sha1 : list Z)
    (entry : Z) (data : list Z) (start end_ : Z) :
  0 <= start <= end_ ->
  let chunk := slice data start end_ in
  (sha1_digest chunk = sha1 ->
     snd (check_sha1 sha1_digest sha1 entry data start end_)
     = inr (lit "SHA1 " ++ hex entry ++ lit " " ++ lit "ok ("
            ++ hexdigest sha1 ++ lit ")"))
  /\ (sha1_digest chunk <> sha1 -> sha1 <> [] ->
        snd (check_sha1 sha1_digest sha1 entry data start end_)
        = inl (Raise TypeError)).
Proof.
  intros Hrange chunk. unfold check_sha1.
  rewrite seek_read_ok by lia. rewrite bind_ok. cbn [prepend snd].
  fold (slice data start end_). fold chunk.
  split.
  - intros Heq. destruct (decide (sha1_digest chunk = sha1)); [| contradiction].
    rewrite Heq. cbn [snd mret M_ret ret]. rewrite <- !app_assoc. reflexivity.
  - intros Hne Hnil. destruct (decide (sha1_digest chunk = sha1)); [contradiction |].
    destruct sha1 as [| b sha1]; [contradiction |]. reflexivity.
Qed.

Lemma check_sha1_outcome_witness :
  snd (check_sha1 (fun b => take 2 b) [7; 7] 1 [1; 2; 3; 4] 1 4)
  = inl (Raise TypeError).
Proof.
  apply (check_sha1_outcome (fun b => take 2 b) [7; 7] 1 [1; 2; 3; 4] 1 4).
  - lia.
  - vm_compute. discriminate.
  - discriminate.
Defined.
